(** * aapns: the single-connection HTTP/2 multiplexer of [simple.py]

    A shallow embedding of [Connection], [Channel], [Request] and
    [Response], and the properties of the multiplexer that follow from the
    code.

    Modelling conventions.
    - asyncio is single-threaded and cooperative: a coroutine runs without
      interruption from one [await] to the next.  Every coroutine is split
      at its suspension points into atomic segments, each a function on the
      connection state; the scheduler is the step relation [Sched.step].
    - Exceptions are values of [exn]; a segment returns the new state
      together with [Ok v] or [Raise e].
    - The HTTP/2 engine (package h2), [json], [yarl], the builtin [int] and
      the transport are collaborators outside [simple.py]: they enter as an
      interface ([H2Connection]), as parameters ([loads], [dumps], [URL],
      [int]) or as the result of an [await] handed to a segment.
    - Clock readings and deadlines are floats, taken as the rationals they
      stand for (seconds); a deadline may also be [math.inf].  Floats are
      compared exactly. The float sum in [Request.new] rounds: it is a
      parameter, [fadd]. *)

From Stdlib Require Import ZArith QArith Ascii Strings.Byte.
From stdpp Require Import gmap strings list pretty.

Local Open Scope string_scope.
Local Open Scope Z_scope.

(** ** Python values *)

Definition bytes := list byte.

(** [b"..."] for ASCII text. *)
Definition b (s : string) : bytes := String.list_byte_of_string s.

(** The exceptions that travel through [simple.py].  [Other name] stands for
    an [Exception] subclass raised inside a collaborator (h2, ssl, the
    socket, json); [CancelledError] derives from [BaseException]. *)
Inductive exn :=
| Timeout
| Blocked
| Closed
| FormatError (msg : bytes)
| ValueError (msg : string)
| AssertionError
| KeyError
| AttributeError
| CancelledError
| Other (name : string).

(** [isinstance(e, Exception)] *)
Definition is_Exception (e : exn) : bool :=
  match e with CancelledError => false | _ => true end.

Inductive res (A : Type) :=
| Ok (a : A)
| Raise (e : exn).
Arguments Ok {A} a.
Arguments Raise {A} e.

#[local] Set Warnings "-register-all".

(** What [json.loads] produces. A float is kept as its binary64 bit
    pattern. *)
Inductive pyobj :=
| PyNone
| PyBool (v : bool)
| PyInt (v : Z)
| PyFloat (bits : Z)
| PyStr (v : string)
| PyList (v : list pyobj)
| PyDict (v : list (string * pyobj)).

(** What [json.loads(body)] gives for [bytes]: a value, a
    [json.JSONDecodeError], or an exception of another class (such as
    [UnicodeDecodeError] for bytes in no Unicode encoding). *)
Inductive decoded :=
| Value (v : pyobj)
| JSONDecodeError
| DecoderError (name : string).

(** ** [dict] with [str] keys: insertion ordered, one entry per key *)

Module Dict.
Definition t (V : Type) := list (string * V).

Fixpoint get {V} (k : string) (d : t V) : option V :=
  match d with
  | [] => None
  | (k', v) :: d' => if String.eqb k k' then Some v else get k d'
  end.

(** [d[k] = v]: an existing key keeps its position. *)
Fixpoint set {V} (k : string) (v : V) (d : t V) : t V :=
  match d with
  | [] => [(k, v)]
  | (k', v') :: d' =>
      if String.eqb k k' then (k, v) :: d' else (k', v') :: set k v d'
  end.

Fixpoint remove {V} (k : string) (d : t V) : t V :=
  match d with
  | [] => []
  | (k', v) :: d' => if String.eqb k k' then d' else (k', v) :: remove k d'
  end.

(** [dict(pairs)] *)
Definition of_items {V} (items : list (string * V)) : t V :=
  fold_left (fun d kv => set (fst kv) (snd kv) d) items [].

(** [d.pop(k, default)]: the value and the dict left behind. *)
Definition pop {V} (k : string) (default : V) (d : t V) : V * t V :=
  match get k d with
  | Some v => (v, remove k d)
  | None => (default, d)
  end.
End Dict.

(** ** A stand-in for [int(s)] on ASCII text

    Python's [int] on a [str] (base 10) strips surrounding whitespace,
    allows one sign, and allows single underscores between digits; it also
    takes digits and whitespace outside ASCII, and newer versions bound the
    number of digits. The code below covers ASCII text only; the embedding
    takes [int] as a parameter and uses this function to run short ASCII
    inputs, on which the two agree. *)

Module PyInt.
Definition is_space (a : ascii) : bool :=
  let n := Z.of_nat (nat_of_ascii a) in
  (n =? 32) || ((9 <=? n) && (n <=? 13)).

Definition digit (a : ascii) : option Z :=
  let n := Z.of_nat (nat_of_ascii a) in
  if (48 <=? n) && (n <=? 57) then Some (n - 48) else None.

Fixpoint lstrip (s : list ascii) : list ascii :=
  match s with
  | a :: s' => if is_space a then lstrip s' else s
  | [] => []
  end.

Definition strip (s : list ascii) : list ascii :=
  rev (lstrip (rev (lstrip s))).

(** Digits after the first one; [sep] tells that the previous character
    was an underscore, which must be followed by a digit. *)
Fixpoint digits (acc : Z) (sep : bool) (s : list ascii) : option Z :=
  match s with
  | [] => if sep then None else Some acc
  | a :: s' =>
      match digit a with
      | Some d => digits (10 * acc + d) false s'
      | None =>
          if Ascii.eqb a "_"%char && negb sep then digits acc true s'
          else None
      end
  end.

Definition unsigned (s : list ascii) : option Z :=
  match s with
  | a :: s' =>
      match digit a with
      | Some d => digits d false s'
      | None => None
      end
  | [] => None
  end.

Definition parse (s : string) : option Z :=
  match strip (String.list_ascii_of_string s) with
  | a :: s' =>
      if Ascii.eqb a "-"%char then Z.opp <$> unsigned s'
      else if Ascii.eqb a "+"%char then unsigned s'
      else unsigned (a :: s')
  | [] => None
  end.

(** [ValueError] when [s] is not an integer literal. *)
Definition int (s : string) : res Z :=
  match parse s with
  | Some n => Ok n
  | None => Raise (ValueError "invalid literal for int() with base 10")
  end.

End PyInt.

(** ** Time *)

(** A deadline: a monotonic-clock reading or [math.inf]. *)
Inductive deadline_t :=
| At (t : Q)
| Inf.

(** [now > deadline] *)
Definition past (now : Q) (d : deadline_t) : bool :=
  match d with
  | At t => negb (Qle_bool now t)
  | Inf => false
  end.

(** [deadline - now], the timeout handed to [asyncio.wait_for]. *)
Definition remaining (d : deadline_t) (now : Q) : deadline_t :=
  match d with
  | At t => At (t - now)%Q
  | Inf => Inf
  end.

(** ** Response *)

Module Response.

Record t := mk {
  code : Z;
  header : Dict.t string;
  data : pyobj;
}.

Section new.

(** The builtin [int] on a [str], and [json.loads]. *)
Variable int : string -> res Z.
Variable loads : bytes -> decoded.

(** [json.loads(body) if body else None] under the handler that turns
    [json.JSONDecodeError] into [FormatError(f"Not JSON: {body[:20]!r}")]. *)
Definition decode (body : bytes) : res pyobj :=
  match body with
  | [] => Ok PyNone
  | _ =>
      match loads body with
      | Value v => Ok v
      | JSONDecodeError => Raise (FormatError (take 20 body))
      | DecoderError name => Raise (Other name)
      end
  end.

Definition new (header : option (Dict.t string)) (body : bytes) : res t :=
  let h := default [] header in
  let '(status, h) := Dict.pop ":status" "0" h in
  match int status with
  | Raise e => Raise e
  | Ok code =>
      match decode body with
      | Ok d => Ok (mk code h d)
      | Raise e => Raise e
      end
  end.

End new.
End Response.

(** ** Request *)

(** The parts of a [yarl.URL] that [simple.py] reads. *)
Record url := mk_url {
  scheme : string;
  host : string;
  port : option Z;
  path_qs : string;
}.

Definition authority (u : url) : string :=
  match port u with
  | None => host u
  | Some p =>
      if (String.eqb (scheme u) "http" && (p =? 80))
         || (String.eqb (scheme u) "https" && (p =? 443))
      then host u
      else host u +:+ ":" +:+ pretty p
  end.

Module Request.

Record t := mk {
  header : list (string * string);
  body : bytes;
  deadline : deadline_t;
}.

Section new.

(** [yarl.URL(url)], which rejects some strings,
    [json.dumps(data).encode("utf-8")], and the sum [x + y] of two floats
    as the machine computes it: rounded to binary64, [math.inf] on
    overflow. *)
Variable URL : string -> res url.
Variable dumps : pyobj -> bytes.
Variable fadd : Q -> Q -> deadline_t.

(** The statements after the [if] chain: the header tuple is the four
    pseudo-headers followed by the caller's, the body the encoded JSON. *)
Definition build (u : string) (header : option (Dict.t string))
    (data : pyobj) (deadline : deadline_t) : res t :=
  match URL u with
  | Raise e => Raise e
  | Ok u =>
      let pseudo :=
        [("method", "POST"); ("scheme", scheme u);
         ("authority", authority u); ("path", path_qs u)] in
      let h := (map (fun kv => (":" +:+ fst kv, snd kv)) pseudo
                ++ default [] header)%list in
      Ok (mk h (dumps data) deadline)
  end.

(** [now] is the reading of [time.monotonic()], consulted only in the
    [timeout] branch; [timeout] is a finite float. *)
Definition new (u : string) (header : option (Dict.t string)) (data : pyobj)
    (timeout : option Q) (deadline : option deadline_t) (now : Q) : res t :=
  match timeout, deadline with
  | Some _, Some _ =>
      Raise (ValueError "Specify timeout or deadline, but not both")
  | Some tmo, None => build u header data (fadd now tmo)
  | None, None => build u header data Inf
  | None, Some d => build u header data d
  end.

End new.
End Request.

(** ** The HTTP/2 engine *)

(** The events of [h2.events] named by the multiplexer, with the attributes
    it reads. [changed_settings] maps a setting code to its new value. *)
Inductive event :=
| RemoteSettingsChanged (changed_settings : gmap Z Z)
| SettingsAcknowledged
| WindowUpdated (stream_id : Z) (delta : Z)
| ResponseReceived (stream_id : Z) (headers : list (string * string))
| DataReceived (stream_id : Z) (data : bytes)
| StreamEnded (stream_id : Z)
| StreamReset (stream_id : Z) (error_code : Z)
| ConnectionTerminated (error_code : Z) (last_stream_id : Z).

(** [getattr(event, "stream_id", 0)] *)
Definition stream_id_of (e : event) : Z :=
  match e with
  | WindowUpdated sid _ | ResponseReceived sid _ | DataReceived sid _
  | StreamEnded sid | StreamReset sid _ => sid
  | RemoteSettingsChanged _ | SettingsAcknowledged
  | ConnectionTerminated _ _ => 0
  end.

(** [getattr(event, "error_code", None)] *)
Definition error_code_of (e : event) : option Z :=
  match e with
  | StreamReset _ c | ConnectionTerminated c _ => Some c
  | _ => None
  end.

(** [h2.settings.SettingCodes.MAX_CONCURRENT_STREAMS] *)
Definition MAX_CONCURRENT_STREAMS : Z := 3.

(** The part of [h2.connection.H2Connection] that [simple.py] calls. An
    operation returns the engine's next state and its result; what the
    engine does inside is left open. *)
Class H2Connection (K : Type) := {
  (** [H2Connection(config)] with [local_settings] assigned *)
  h2_create : K;
  initiate_connection : K -> K;
  outbound_flow_control_window : K -> Z;
  open_outbound_streams : K -> Z;
  (** [None] is [NoAvailableStreamIDError] *)
  get_next_available_stream_id : K -> option Z;
  send_headers : K -> Z -> list (string * string) -> bool -> K * res unit;
  increment_flow_control_window : K -> Z -> option Z -> K * res unit;
  send_data : K -> Z -> bytes -> bool -> K * res unit;
  receive_data : K -> bytes -> K * res (list event);
  data_to_send : K -> K * bytes;
}.

(** ** Channel: the record of one stream *)

(** The states of an [asyncio.Future]. *)
Inductive future :=
| FPending
| FResult
| FException (e : exn)
| FCancelled.

Definition done (f : future) : bool :=
  match f with FPending => false | _ => true end.

Module Channel.

Record t := mk {
  sid : Z;
  fut : option future;
  ev : list event;
  header : option (Dict.t string);
  body : bytes;
}.

Definition set_fut (f : option future) (ch : t) : t :=
  mk (sid ch) f (ev ch) (header ch) (body ch).

Definition set_header (h : option (Dict.t string)) (ch : t) : t :=
  mk (sid ch) (fut ch) (ev ch) h (body ch).

Definition set_body (d : bytes) (ch : t) : t :=
  mk (sid ch) (fut ch) (ev ch) (header ch) d.

(** [ch.ev.append(event)] *)
Definition append (e : event) (ch : t) : t :=
  mk (sid ch) (fut ch) (ev ch ++ [e])%list (header ch) (body ch).

(** [if ch.fut and not ch.fut.done(): ch.fut.set_exception(Closed())] *)
Definition release (ch : t) : t :=
  match fut ch with
  | Some FPending => set_fut (Some (FException Closed)) ch
  | _ => ch
  end.

(** The body of [for event in ch.ev] in [post], run over [evs]: the record
    as the loop leaves it, and whether it left through [return]. *)
Fixpoint scan (evs : list event) (ch : t) : t * bool :=
  match evs with
  | [] => (ch, false)
  | ResponseReceived _ h :: evs' =>
      scan evs' (set_header (Some (Dict.of_items h)) ch)
  | DataReceived _ d :: evs' => scan evs' (set_body (body ch ++ d)%list ch)
  | StreamEnded _ :: _ => (ch, true)
  | _ :: evs' => scan evs' ch
  end.

End Channel.

(** ** Connection *)

Definition MAX_NOTIFICATION_PAYLOAD_SIZE : Z := 5120.
Definition REQUIRED_FREE_SPACE : Z := 6000.

(** A background task. *)
Inductive task :=
| Running
| Finished.

(** What a segment of [post] ends in when it does not raise: suspended in
    [asyncio.wait_for(ch.fut, timeout)], or returned. *)
Inductive progress :=
| Await (sid : Z) (timeout : deadline_t)
| Return (r : Response.t).

Module Connection.

Record t {K : Type} := mk {
  closed : bool;
  closing : bool;
  channels : gmap Z Channel.t;
  max_concurrent_streams : Z;
  conn : K;
  please_write : bool;
  bgr : task;
  bgw : task;
  (** what [self.w.write] was given, oldest first, and whether
      [self.w.close()] was called *)
  written : list bytes;
  w_closed : bool;
}.
Arguments t : clear implicits.
Arguments mk {K}.

Section fields.
Context {K : Type}.
Implicit Type c : t K.

Definition set_closed (v : bool) c : t K :=
  mk v (closing c) (channels c) (max_concurrent_streams c) (conn c)
     (please_write c) (bgr c) (bgw c) (written c) (w_closed c).

Definition set_closing (v : bool) c : t K :=
  mk (closed c) v (channels c) (max_concurrent_streams c) (conn c)
     (please_write c) (bgr c) (bgw c) (written c) (w_closed c).

Definition set_channels (m : gmap Z Channel.t) c : t K :=
  mk (closed c) (closing c) m (max_concurrent_streams c) (conn c)
     (please_write c) (bgr c) (bgw c) (written c) (w_closed c).

Definition set_max_concurrent_streams (v : Z) c : t K :=
  mk (closed c) (closing c) (channels c) v (conn c)
     (please_write c) (bgr c) (bgw c) (written c) (w_closed c).

Definition set_conn (k : K) c : t K :=
  mk (closed c) (closing c) (channels c) (max_concurrent_streams c) k
     (please_write c) (bgr c) (bgw c) (written c) (w_closed c).

Definition set_please_write (v : bool) c : t K :=
  mk (closed c) (closing c) (channels c) (max_concurrent_streams c) (conn c)
     v (bgr c) (bgw c) (written c) (w_closed c).

Definition set_bgr (v : task) c : t K :=
  mk (closed c) (closing c) (channels c) (max_concurrent_streams c) (conn c)
     (please_write c) v (bgw c) (written c) (w_closed c).

Definition set_bgw (v : task) c : t K :=
  mk (closed c) (closing c) (channels c) (max_concurrent_streams c) (conn c)
     (please_write c) (bgr c) v (written c) (w_closed c).

Definition set_written (v : list bytes) c : t K :=
  mk (closed c) (closing c) (channels c) (max_concurrent_streams c) (conn c)
     (please_write c) (bgr c) (bgw c) v (w_closed c).

Definition set_w_closed (v : bool) c : t K :=
  mk (closed c) (closing c) (channels c) (max_concurrent_streams c) (conn c)
     (please_write c) (bgr c) (bgw c) (written c) v.

(** An update through the alias [ch = self.channels[sid]]. *)
Definition update_channel (sid : Z) (f : Channel.t -> Channel.t) c : t K :=
  set_channels (alter f sid (channels c)) c.

End fields.

(** *** State and exceptions

    A segment is a function from the connection to the connection it leaves
    and a value or an exception. *)

Definition M (K A : Type) : Type := t K -> t K * res A.

Section monad.
Context {K : Type}.

Definition ret {A} (a : A) : M K A := fun c => (c, Ok a).

Definition raise {A} (e : exn) : M K A := fun c => (c, Raise e).

Definition bind {A B} (m : M K A) (f : A -> M K B) : M K B :=
  fun c =>
    match m c with
    | (c', Ok a) => f a c'
    | (c', Raise e) => (c', Raise e)
    end.

Definition gets {A} (f : t K -> A) : M K A := fun c => (c, Ok (f c)).

Definition modify (f : t K -> t K) : M K unit := fun c => (f c, Ok tt).

Definition lift {A} (r : res A) : M K A := fun c => (c, r).

(** A call into the engine [self.conn]. *)
Definition codec {A} (op : K -> K * res A) : M K A :=
  fun c => let '(k, r) := op (conn c) in (set_conn k c, r).

(** [assert cond] *)
Definition assert_ (cond : bool) : M K unit :=
  if cond then ret tt else raise AssertionError.

(** [if cond: raise e] *)
Definition raise_if (cond : bool) (e : exn) : M K unit :=
  if cond then raise e else ret tt.

End monad.

Notation "'let*' x ':=' m 'in' k" := (bind m (fun x => k))
  (at level 10, x name, m at level 100, k at level 200).
Notation "m ';;' k" := (bind m (fun _ => k))
  (at level 100, k at level 200, right associativity).

Section methods.
Context {K : Type} `{!H2Connection K}.
Implicit Type c : t K.

(** [int] and [json.loads], as in [Response.new]. *)
Variable int : string -> res Z.
Variable loads : bytes -> decoded.

(** *** [__aenter__]

    [tr] is what the TLS connection attempt gave: an exception, or the ALPN
    protocol of the ssl object ([None] when there is none). *)
Definition __aenter__ (tr : res (option string)) : res (t K) :=
  match tr with
  | Raise e => Raise e
  | Ok proto =>
      if bool_decide (proto = Some "h2") then
        let k := initiate_connection h2_create in
        match increment_flow_control_window k (2 ^ 24) None with
        | (_, Raise e) => Raise e
        | (k, Ok _) =>
            Ok (mk false false ∅ 100 k true Running Running [] false)
        end
      else Raise AssertionError
  end.

(** *** [blocked] *)
Definition blocked c : bool :=
  closing c
  || closed c
  || (outbound_flow_control_window (conn c) <=? REQUIRED_FREE_SPACE)
  || (open_outbound_streams (conn c) >=? max_concurrent_streams c).

(** *** [__aexit__], one segment per stretch between two [await]s *)

(** [self.closing = True], then [self.bgw.cancel()]: the writer, suspended
    in [drain] or [wait], ends with [CancelledError]. *)
Definition aexit_enter c : t K := set_bgw Finished (set_closing true c).

(** [self.bgr.cancel()]: the reader, suspended in [read], ends likewise. *)
Definition aexit_cancel_reader c : t K := set_bgr Finished c.

(** The loop over [self.channels.items()], then [self.w.close()]. *)
Definition aexit_release c : t K :=
  set_w_closed true (set_channels (Channel.release <$> channels c) c).

(** [finally: self.closed = True] *)
Definition aexit_finally c : t K := set_closed true c.

(** [__aexit__] when no other task runs in between. *)
Definition __aexit__ c : t K :=
  aexit_finally (aexit_release (aexit_cancel_reader (aexit_enter c))).

(** *** [background_read] *)

(** The body of [for event in self.conn.receive_data(data)]. *)
Definition dispatch (e : event) : M K unit :=
  match e with
  | RemoteSettingsChanged changed =>
      match changed !! MAX_CONCURRENT_STREAMS with
      | Some m => modify (set_max_concurrent_streams m)
      | None => ret tt
      end
  | _ => ret tt
  end ;;
  let sid := stream_id_of e in
  let error := error_code_of e in
  let* chans := gets channels in
  match chans !! sid with
  | Some ch =>
      modify (update_channel sid (Channel.append e)) ;;
      match Channel.fut ch with
      | None => raise AttributeError
      | Some f =>
          if done f then ret tt
          else modify (update_channel sid (Channel.set_fut (Some FResult)))
      end
  | None => ret tt
  end ;;
  if (sid =? 0) && bool_decide (error ≠ None) then modify (set_closing true)
  else ret tt.

Fixpoint dispatch_all (evs : list event) : M K unit :=
  match evs with
  | [] => ret tt
  | e :: evs' => dispatch e ;; dispatch_all evs'
  end.

(** The task starts: the first test of [while not self.closed]. *)
Definition background_read_start c : t K :=
  if closed c then set_bgr Finished c else c.

(** The task is over: it returned, or an exception left the loop (an
    [Exception] is logged by the handler, a [CancelledError] passes). *)
Definition reader_exit c : t K := set_bgr Finished c.

(** One turn of the [while] loop, from the moment [self.r.read] gives [r]
    to the next [read] or the end of the task. *)
Definition background_read (r : res bytes) c : t K :=
  match r with
  | Raise _ => reader_exit c
  | Ok [] =>
      let c := set_closed true (set_closing true c) in
      reader_exit (set_channels (Channel.release <$> channels c) c)
  | Ok data =>
      match (codec (fun k => receive_data k data) : M K _) c with
      | (c, Raise _) => reader_exit c
      | (c, Ok events) =>
          match dispatch_all events c with
          | (c, Raise _) => reader_exit c
          | (c, Ok _) =>
              let c := set_please_write true c in
              if closed c then reader_exit c else c
          end
      end
  end.

(** *** [background_write]

    One turn of the inner loop; [drained] is what [self.w.drain()] gives
    when the turn writes. With nothing to send and the signal clear the
    writer stays suspended in [please_write.wait()]. *)
Definition background_write (drained : res unit) c : t K :=
  if closed c then set_bgw Finished c
  else
    let '(k, data) := data_to_send (conn c) in
    let c := set_conn k c in
    match data with
    | _ :: _ =>
        let c := set_written (written c ++ [data])%list c in
        match drained with
        | Ok _ => c
        | Raise _ => set_bgw Finished c
        end
    | [] => if please_write c then set_please_write false c else c
    end.

(** *** [post] *)

(** [del self.channels[sid]] *)
Definition del_channel (sid : Z) : M K unit :=
  fun c =>
    match channels c !! sid with
    | Some _ => (set_channels (delete sid (channels c)) c, Ok tt)
    | None => (c, Raise KeyError)
    end.

(** [try: body finally: del self.channels[sid]], for a segment [body] that
    runs inside the [try]: the [finally] clause runs unless the segment
    ends suspended. *)
Definition try_finally_del (sid : Z) (body : M K progress) : M K progress :=
  fun c =>
    match body c with
    | (c', Ok (Await s tmo)) => (c', Ok (Await s tmo))
    | (c', r) =>
        match del_channel sid c' with
        | (c'', Ok _) => (c'', r)
        | (c'', Raise e) => (c'', Raise e)
        end
    end.

(** The local variable [ch]; the record is in the table as long as the
    call is in its [try]. *)
Definition the_channel (sid : Z) : M K Channel.t :=
  fun c =>
    match channels c !! sid with
    | Some ch => (c, Ok ch)
    | None => (c, Raise KeyError)
    end.

(** [timeout <= 0], the test [asyncio.wait_for] makes on entry. The float
    difference [req.deadline - now] is zero or less exactly when the
    difference of the two readings is. *)
Definition run_out (timeout : deadline_t) : bool :=
  match timeout with
  | At t => Qle_bool t 0
  | Inf => false
  end.

(** The head of [while not self.closing], up to the suspension inside
    [asyncio.wait_for]. With a timeout above zero the new waiter is pending
    while the call is suspended; with [timeout <= 0] [wait_for] cancels it
    before it suspends, and raises [asyncio.TimeoutError] on waking. *)
Definition wait (req : Request.t) (sid : Z) (now : Q) : M K progress :=
  let* cl := gets closing in
  if cl then raise Closed
  else
    let timeout := remaining (Request.deadline req) now in
    modify (update_channel sid
              (Channel.set_fut
                 (Some (if run_out timeout then FCancelled else FPending)))) ;;
    ret (Await sid timeout).

(** [post], from the call to its first [await]. When the engine raises
    [NoAvailableStreamIDError], the handler is matched by evaluating
    [h2.NoAvailableStreamIDError]; the package [h2] has no attribute of that
    name (the class is [h2.exceptions.NoAvailableStreamIDError]), so this
    raises [AttributeError] and [raise Closed()] is not reached. *)
Definition post (req : Request.t) (now : Q) : M K progress :=
  assert_ (Z.of_nat (length (Request.body req))
           <=? MAX_NOTIFICATION_PAYLOAD_SIZE) ;;
  raise_if (past now (Request.deadline req)) Timeout ;;
  let* blk := gets blocked in
  raise_if blk Blocked ;;
  let* k := gets conn in
  let* sid := match get_next_available_stream_id k with
              | Some sid => ret sid
              | None => raise AttributeError
              end in
  let* chans := gets channels in
  assert_ (bool_decide (chans !! sid = None)) ;;
  modify (fun c =>
    set_channels
      (<[sid := Channel.mk sid None [] None []]> (channels c)) c) ;;
  codec (fun k => send_headers k sid (Request.header req) false) ;;
  codec (fun k => increment_flow_control_window k (2 ^ 16) (Some sid)) ;;
  codec (fun k => send_data k sid (Request.body req) true) ;;
  modify (set_please_write true) ;;
  try_finally_del sid (wait req sid now).

(** [post], from the moment [asyncio.wait_for] hands control back, at clock
    reading [now], to the next [await] or the end of the call. A future
    still pending means the timer fired: [wait_for] cancels the future and
    raises [asyncio.TimeoutError], which the handler passes over; a future
    already cancelled is the one [wait_for] cancelled on entry, with the
    same [TimeoutError]. *)
Definition post_resume (req : Request.t) (sid : Z) (now : Q) : M K progress :=
  try_finally_del sid (
    let* ch := the_channel sid in
    match Channel.fut ch with
    | Some FResult => ret tt
    | Some FPending =>
        modify (update_channel sid (Channel.set_fut (Some FCancelled)))
    | Some (FException e) => raise e
    | Some FCancelled => ret tt
    | None => raise (Other "TypeError")
    end ;;
    raise_if (past now (Request.deadline req)) Timeout ;;
    let* ch := the_channel sid in
    let '(ch, ended) := Channel.scan (Channel.ev ch) ch in
    modify (update_channel sid (fun _ => ch)) ;;
    if ended then
      let* r := lift (Response.new int loads (Channel.header ch)
                        (Channel.body ch)) in
      ret (Return r)
    else wait req sid now).

(** The caller cancels a suspended [post], and the call runs on at clock
    reading [now]. When the waiter is already done with a result or an
    exception, [asyncio.wait_for] (up to Python 3.11) catches the
    [CancelledError] and hands over the waiter's outcome: the call goes on
    as when woken. Otherwise [CancelledError] is raised at the [await],
    inside the [try]. *)
Definition post_cancel (req : Request.t) (sid : Z) (now : Q)
    : M K progress :=
  fun c =>
    match Channel.fut <$> channels c !! sid with
    | Some (Some FResult) | Some (Some (FException _)) =>
        post_resume req sid now c
    | _ => try_finally_del sid (raise CancelledError) c
    end.

(** [asyncio.wait_for] hands control back once the future is done or the
    timeout, which ends at the deadline, has run out. *)
Definition wakeable (req : Request.t) (sid : Z) (now : Q) c : bool :=
  match channels c !! sid with
  | Some ch =>
      match Channel.fut ch with
      | Some f =>
          done f
          || match Request.deadline req with
             | At d => Qle_bool d now
             | Inf => false
             end
      | None => false
      end
  | None => false
  end.

End methods.
End Connection.

(** ** The event loop

    The tasks of one connection interleave at their suspension points. The
    owner of the [async with] block is in the block, inside [__aexit__], or
    past it; [post] calls, the reader and the writer take their segments at
    any time, with any outcome of the [await] that ended. *)

Module Sched.

Inductive scope :=
| InScope
| Exiting
| Exited.

Section step.
Context {K : Type} `{!H2Connection K}.
Variable int : string -> res Z.
Variable loads : bytes -> decoded.

Definition state : Type := Connection.t K * scope.

Inductive step : state -> state -> Prop :=
| step_post req now c pc :
    step (c, pc) (fst (Connection.post req now c), pc)
| step_post_resume req sid now c pc :
    Connection.wakeable req sid now c = true ->
    step (c, pc) (fst (Connection.post_resume int loads req sid now c), pc)
| step_post_cancel req sid now c pc :
    step (c, pc) (fst (Connection.post_cancel int loads req sid now c), pc)
| step_read_start c pc :
    Connection.bgr c = Running ->
    step (c, pc) (Connection.background_read_start c, pc)
| step_read r c pc :
    Connection.bgr c = Running ->
    step (c, pc) (Connection.background_read r c, pc)
| step_write d c pc :
    Connection.bgw c = Running ->
    step (c, pc) (Connection.background_write d c, pc)
| step_aexit_enter c :
    step (c, InScope) (Connection.aexit_enter c, Exiting)
| step_aexit_cancel_reader c :
    step (c, Exiting) (Connection.aexit_cancel_reader c, Exiting)
| step_aexit_release c :
    step (c, Exiting) (Connection.aexit_release c, Exiting)
| step_aexit_finally c :
    step (c, Exiting) (Connection.aexit_finally c, Exited).

(** The states a connection goes through once [__aenter__] has returned. *)
Inductive reachable : state -> Prop :=
| reachable_open tr c :
    Connection.__aenter__ tr = Ok c -> reachable (c, InScope)
| reachable_step s s' :
    reachable s -> step s s' -> reachable s'.

End step.
End Sched.

(** ** Stand-ins for the collaborators, to run the code on concrete inputs *)

(** An HTTP/2 engine reduced to its counters. Outbound data is checked
    against the connection window and the window of a fresh stream, as h2
    does; inbound bytes are not parsed: each [receive_data] replays the next
    batch of a script and applies its effect on the counters. *)
Module FakeH2.

Record t := mk {
  window : Z;
  stream_window : Z;
  open : Z;
  highest : Z;
  outbox : list bytes;
  script : list (res (list event));
}.

Definition HIGHEST_ALLOWED_STREAM_ID : Z := 2 ^ 31 - 1.

Definition fresh : t := mk 65535 65535 0 0 [] [].

Definition queue (frame : bytes) (k : t) : t :=
  mk (window k) (stream_window k) (open k) (highest k)
     (outbox k ++ [frame])%list (script k).

Definition next_id (k : t) : option Z :=
  let n := if highest k =? 0 then 1 else highest k + 2 in
  if n >? HIGHEST_ALLOWED_STREAM_ID then None else Some n.

Definition headers (k : t) (sid : Z) (h : list (string * string))
    (end_stream : bool) : t * res unit :=
  (mk (window k) (stream_window k) (open k + 1) sid
      (outbox k ++ [b "HEADERS"])%list (script k), Ok tt).

Definition window_update (k : t) (n : Z) (sid : option Z) : t * res unit :=
  (queue (b "WINDOW_UPDATE") k, Ok tt).

Definition data (k : t) (sid : Z) (d : bytes) (end_stream : bool)
    : t * res unit :=
  if Z.of_nat (length d) >? Z.min (window k) (stream_window k)
  then (k, Raise (Other "FlowControlError"))
  else (mk (window k - Z.of_nat (length d)) (stream_window k) (open k)
           (highest k) (outbox k ++ [d])%list (script k), Ok tt).

Definition absorb (k : t) (e : event) : t :=
  match e with
  | WindowUpdated 0 d =>
      mk (window k + d) (stream_window k) (open k) (highest k)
         (outbox k) (script k)
  | StreamEnded _ | StreamReset _ _ =>
      mk (window k) (stream_window k) (open k - 1) (highest k)
         (outbox k) (script k)
  | _ => k
  end.

Definition receive (k : t) (_ : bytes) : t * res (list event) :=
  match script k with
  | [] => (k, Ok [])
  | r :: rest =>
      let k := mk (window k) (stream_window k) (open k) (highest k)
                  (outbox k) rest in
      match r with
      | Ok evs => (fold_left absorb evs k, Ok evs)
      | Raise e => (k, Raise e)
      end
  end.

Definition flush (k : t) : t * bytes :=
  (mk (window k) (stream_window k) (open k) (highest k) [] (script k),
   concat (outbox k)).

#[global] Instance engine : H2Connection t := {|
  h2_create := fresh;
  initiate_connection := queue (b "PRI * HTTP/2.0");
  outbound_flow_control_window := window;
  open_outbound_streams := open;
  get_next_available_stream_id := next_id;
  send_headers := headers;
  increment_flow_control_window := window_update;
  send_data := data;
  receive_data := receive;
  data_to_send := flush;
|}.

End FakeH2.

(** A decoder for the JSON texts [null], [true], [false] and the integers.
    The single byte 0xff is text in no encoding [json.loads] tries: it is
    reported as [UnicodeDecodeError]. Anything else is reported as
    [JSONDecodeError]. On the texts it accepts it gives what [json.loads]
    gives. *)
Module FakeJSON.

Fixpoint number (acc : Z) (s : list ascii) : option Z :=
  match s with
  | [] => Some acc
  | a :: s' =>
      match PyInt.digit a with
      | Some d => number (10 * acc + d) s'
      | None => None
      end
  end.

Definition natural (s : list ascii) : option Z :=
  match s with
  | [] => None
  | [a] => PyInt.digit a
  | a :: _ => if Ascii.eqb a "0"%char then None else number 0 s
  end.

Definition integer (s : list ascii) : option Z :=
  match s with
  | a :: s' => if Ascii.eqb a "-"%char then Z.opp <$> natural s'
               else natural s
  | [] => None
  end.

Definition loads (body : bytes) : decoded :=
  let s := String.string_of_list_byte body in
  if String.eqb s (String "255" EmptyString)
  then DecoderError "UnicodeDecodeError"
  else if String.eqb s "null" then Value PyNone
  else if String.eqb s "true" then Value (PyBool true)
  else if String.eqb s "false" then Value (PyBool false)
  else match integer (String.list_ascii_of_string s) with
       | Some n => Value (PyInt n)
       | None => JSONDecodeError
       end.

End FakeJSON.

(** ** Concrete connections and requests *)

Module Sample.

(** The connection as [__aenter__] leaves it, on the stand-in engine. *)
Definition opened : Connection.t FakeH2.t :=
  Connection.mk false false ∅ 100
    (FakeH2.queue (b "WINDOW_UPDATE")
       (FakeH2.queue (b "PRI * HTTP/2.0") FakeH2.fresh))
    true Running Running [] false.

(** The same with another engine state. *)
Definition with_engine (k : FakeH2.t) : Connection.t FakeH2.t :=
  Connection.set_conn k opened.

(** A request with the empty object as payload and deadline [d]. *)
Definition request (d : deadline_t) : Request.t :=
  Request.mk
    [(":method", "POST"); (":scheme", "https");
     (":authority", "localhost:2197"); (":path", "/3/device/aaa");
     ("foo", "bar")]
    (b "{}") d.

(** An engine whose outbound window is [w]. *)
Definition engine_window (w : Z) : FakeH2.t :=
  FakeH2.mk w 65535 0 0 [] [].

(** An engine whose peer announced [SETTINGS_INITIAL_WINDOW_SIZE = 1]. *)
Definition engine_small_streams : FakeH2.t :=
  FakeH2.mk 65535 1 0 0 [] [].

(** An engine with two bytes of window above the threshold, whose peer
    will send a connection-level [WINDOW_UPDATE] of 100. *)
Definition engine_near_threshold : FakeH2.t :=
  FakeH2.mk (REQUIRED_FREE_SPACE + 2) 65535 0 0 [] [Ok [WindowUpdated 0 100]].

(** An engine that has used the last stream identifier. *)
Definition engine_exhausted : FakeH2.t :=
  FakeH2.mk 65535 65535 0 (2 ^ 31 - 1) [] [].

(** A URL parser that knows one URL; it is used on that URL and on the
    malformed [http://[], which [yarl.URL] rejects with [ValueError]. *)
Definition URL (u : string) : res url :=
  if String.eqb u "https://localhost:2197/3/device/aaa"
  then Ok (mk_url "https" "localhost" (Some 2197) "/3/device/aaa")
  else Raise (ValueError "Invalid URL").

(** The sum of two floats, for operands whose sum is a float: no
    rounding. *)
Definition fadd (x y : Q) : deadline_t := At (x + y)%Q.

(** An encoder that knows one payload. *)
Definition dumps (_ : pyobj) : bytes := b "{}".

(** An engine whose peer will answer in the given batches of events, one
    batch per read. *)
Definition engine_script (script : list (list event)) : FakeH2.t :=
  FakeH2.mk 65535 65535 0 0 [] (Ok <$> script).

(** An engine whose peer allows one byte per stream and will send a
    [WINDOW_UPDATE] for stream 1. *)
Definition engine_small_then_update : FakeH2.t :=
  FakeH2.mk 65535 1 0 0 [] [Ok [WindowUpdated 1 10]].

(** [opened] after one [post] of [request (At 10)] at time 0: stream 1 is
    waiting. *)
Definition posted : Connection.t FakeH2.t :=
  fst (Connection.post (request (At 10)) 0 opened).

End Sample.

(** ** Notions used in the statements *)

(** [f(r)] when [r] is a value. *)
Definition res_map {A B} (f : A -> B) (r : res A) : res B :=
  match r with
  | Ok a => Ok (f a)
  | Raise e => Raise e
  end.

(** What the reader does to the record of the stream an event belongs to:
    the event is appended and a pending waiter completed. *)
Definition delivered (e : event) (ch : Channel.t) : Channel.t :=
  let ch' := Channel.append e ch in
  match Channel.fut ch with
  | Some FPending => Channel.set_fut (Some FResult) ch'
  | _ => ch'
  end.

(** The events that carry a [stream_id]. *)
Definition stream_event (e : event) : bool :=
  match e with
  | ResponseReceived _ _ | DataReceived _ _ | StreamEnded _
  | StreamReset _ _ | WindowUpdated _ _ => true
  | _ => false
  end.

(** The events ahead of the first [StreamEnded]. *)
Fixpoint until_end (evs : list event) : list event :=
  match evs with
  | [] => []
  | StreamEnded _ :: _ => []
  | e :: evs' => e :: until_end evs'
  end.

(** Whether a [StreamEnded] is among the events. *)
Definition has_end (evs : list event) : bool :=
  existsb (fun e => match e with StreamEnded _ => true | _ => false end) evs.

(** The bytes of the [DataReceived] events ahead of the first
    [StreamEnded], in order. *)
Definition payload (evs : list event) : bytes :=
  concat (map (fun e => match e with DataReceived _ d => d | _ => [] end)
              (until_end evs)).

(** The header dict of the last [ResponseReceived] ahead of the first
    [StreamEnded]; [h0] when there is none. *)
Definition headers_seen (evs : list event) (h0 : option (Dict.t string))
    : option (Dict.t string) :=
  fold_left (fun h e => match e with
                        | ResponseReceived _ hs => Some (Dict.of_items hs)
                        | _ => h
                        end) (until_end evs) h0.

(** The keys of a dict, in order. *)
Definition keys {V} (d : Dict.t V) : list string := map fst d.

Section notions.
Context {K : Type}.
Implicit Type c : Connection.t K.

(** [m] changes no record of the stream table but that of [sid]. *)
Definition leaves_others {A} (sid : Z) (m : Connection.M K A) : Prop :=
  forall c sid', sid' <> sid ->
    Connection.channels (fst (m c)) !! sid' = Connection.channels c !! sid'.

(** [c'] has the [closed] flag of [c], and its [closing] flag unless that
    was set on the way. *)
Definition quiet_step c c' : Prop :=
  Connection.closed c' = Connection.closed c
  /\ (Connection.closing c = true -> Connection.closing c' = true).

Definition quiet {A} (m : Connection.M K A) : Prop :=
  forall c, quiet_step c (fst (m c)).

(** With [closing] set, the segment [m] of a [post] does not end
    suspended. *)
Definition never_waits (m : Connection.M K progress) : Prop :=
  forall c, Connection.closing c = true ->
    forall s tmo, snd (m c) <> Ok (Await s tmo).

(** [closed] implies [closing], and [closing] is set from the moment the
    owner enters [__aexit__]. *)
Definition lifecycle_inv (s : Connection.t K * Sched.scope) : Prop :=
  (Connection.closed (fst s) = true -> Connection.closing (fst s) = true)
  /\ (snd s <> Sched.InScope -> Connection.closing (fst s) = true).

End notions.

(** * Properties *)

Import Connection.

(** ** Opening *)

Example opened_by_aenter : __aenter__ (Ok (Some "h2")) = Ok Sample.opened.
Proof. reflexivity. Qed.

Example no_alpn_no_connection :
  __aenter__ (K:=FakeH2.t) (Ok (Some "http/1.1")) = Raise AssertionError.
Proof. reflexivity. Qed.

(** ** Deadlines *)

Lemma past_At now t : past now (At t) = true <-> (t < now)%Q.
Proof.
  unfold past. rewrite negb_true_iff. split.
  - intros H. apply Qnot_le_lt. intros Hle.
    apply Qle_bool_iff in Hle. congruence.
  - intros H. destruct (Qle_bool now t) eqn:E; [|done].
    apply Qle_bool_iff in E. exfalso. eapply Qlt_not_le; eauto.
Qed.


(** ** [Response.new] *)

Section response.
Variable int : string -> res Z.
Variable loads : bytes -> decoded.


Lemma remove_absent (d : Dict.t string) k :
  Dict.get k d = None -> Dict.remove k d = d.
Proof.
  induction d as [|[k' v] d IH]; cbn [Dict.get Dict.remove]; [done|].
  destruct (String.eqb k k'); [done|]. intros H. by rewrite IH.
Qed.

(** [pop] spelled out: the status is looked up, the entry removed. *)
Lemma new_unfold header body :
  Response.new int loads header body =
  match int (default "0" (Dict.get ":status" (default [] header))) with
  | Raise e => Raise e
  | Ok code =>
      match Response.decode loads body with
      | Ok d =>
          Ok (Response.mk code
                (Dict.remove ":status" (default [] header)) d)
      | Raise e => Raise e
      end
  end.
Proof.
  unfold Response.new, Dict.pop.
  destruct (Dict.get ":status" (default [] header)) eqn:E; simpl.
  - reflexivity.
  - by rewrite remove_absent.
Qed.


End response.



(** ** [Request.new] *)

Section request.
Variable URL : string -> res url.
Variable dumps : pyobj -> bytes.
Variable fadd : Q -> Q -> deadline_t.


End request.



(** ** [blocked] *)

Section blocked.
Context {K : Type} `{!H2Connection K}.
Implicit Type c : Connection.t K.

(** C3: [blocked] holds exactly when [closing] or [closed] is set, the
    outbound window is at most [REQUIRED_FREE_SPACE] = 6000, or the open
    outbound streams have reached [max_concurrent_streams]; with the flags
    unset and the streams below the cap it follows the window alone, true
    at or below the threshold and false above it. *)
Theorem blocked_spec c :
  (blocked c = true <->
     closing c = true \/ closed c = true
     \/ outbound_flow_control_window (conn c) <= REQUIRED_FREE_SPACE
     \/ open_outbound_streams (conn c) >= max_concurrent_streams c)
  /\ REQUIRED_FREE_SPACE = 6000
  /\ (forall k : K,
        closing c = false -> closed c = false ->
        open_outbound_streams k < max_concurrent_streams c ->
        (blocked (set_conn k c) = true <->
           outbound_flow_control_window k <= REQUIRED_FREE_SPACE)).
Proof.
  split; [|split; [done|]].
  - unfold blocked.
    rewrite !orb_true_iff, Z.leb_le, Z.geb_le. intuition lia.
  - intros k Hcl Hcd Ho. unfold blocked. simpl.
    rewrite Hcl, Hcd. simpl. rewrite orb_true_iff, Z.leb_le, Z.geb_le. lia.
Qed.

End blocked.

(** A post of two bytes takes the window down to the threshold, the peer's
    window update takes it up again. *)
Lemma blocked_spec_witness :
  let c1 := Sample.with_engine Sample.engine_near_threshold in
  let c2 := fst (post (Sample.request Inf) 0 c1) in
  let c3 := background_read (Ok (b "frame")) c2 in
  blocked c1 = false /\ blocked c2 = true /\ blocked c3 = false.
Proof.
  intros c1 c2 c3. split; [|split].
  - reflexivity.
  - apply (proj1 (blocked_spec c2)). right. right. left. by vm_compute.
  - destruct (blocked c3) eqn:E; [|reflexivity].
    apply (proj1 (blocked_spec c3)) in E.
    vm_compute in E. by destruct E as [E|[E|[E|E]]].
Defined.

(** ** [post]: the pre-checks *)

Section post_checks.
Context {K : Type} `{!H2Connection K}.
Implicit Type c : Connection.t K.

(** The pre-checks of [post] one by one. *)
Lemma post_unfold req now c :
  post req now c =
  if Z.of_nat (length (Request.body req)) <=? MAX_NOTIFICATION_PAYLOAD_SIZE
  then
    if past now (Request.deadline req) then (c, Raise Timeout)
    else if blocked c then (c, Raise Blocked)
    else
      match get_next_available_stream_id (conn c) with
      | None => (c, Raise AttributeError)
      | Some sid =>
          if bool_decide (channels c !! sid = None) then
            (modify (fun c =>
               set_channels
                 (<[sid := Channel.mk sid None [] None []]> (channels c)) c) ;;
             codec (fun k => send_headers k sid (Request.header req) false) ;;
             codec (fun k =>
               increment_flow_control_window k (2 ^ 16) (Some sid)) ;;
             codec (fun k => send_data k sid (Request.body req) true) ;;
             modify (set_please_write true) ;;
             try_finally_del sid (wait req sid now)) c
          else (c, Raise AssertionError)
      end
  else (c, Raise AssertionError).
Proof.
  unfold post, bind at 1, assert_.
  destruct (_ <=? _); [|done]. cbn [ret].
  unfold bind at 1, raise_if.
  destruct (past _ _); [done|]. cbn [ret].
  unfold bind at 1, gets.
  unfold bind at 1.
  destruct (blocked c); [done|]. cbn [ret].
  unfold bind at 1.
  unfold bind at 1.
  destruct (get_next_available_stream_id _); [|done]. cbn [ret].
  unfold bind at 1.
  unfold bind at 1.
  destruct (bool_decide _); done.
Qed.

(** C2, as amended: a [post] (of a body within the size cap) whose deadline
    is strictly before the clock reading at entry fails with [Timeout] and
    leaves the connection as it was: nothing is queued for sending, no
    stream identifier is taken, and [blocked] plays no part. *)
Theorem post_after_deadline c req now d :
  Z.of_nat (length (Request.body req)) <= MAX_NOTIFICATION_PAYLOAD_SIZE ->
  Request.deadline req = At d ->
  (d < now)%Q ->
  post req now c = (c, Raise Timeout).
Proof.
  intros Hlen Hd Hlt. rewrite post_unfold.
  apply Z.leb_le in Hlen. rewrite Hlen.
  rewrite Hd. apply past_At in Hlt. by rewrite Hlt.
Qed.

(** C7, as amended: when the engine has no stream identifier left, [post]
    (not blocked, within its deadline) returns no response and leaves the
    connection as it was: no record is added, [closing] stays unset and
    [blocked] stays false, so no later post on that connection is turned
    away by the [blocked] pre-check. *)
Theorem post_exhausted c req now :
  Z.of_nat (length (Request.body req)) <= MAX_NOTIFICATION_PAYLOAD_SIZE ->
  past now (Request.deadline req) = false ->
  blocked c = false ->
  get_next_available_stream_id (conn c) = None ->
  fst (post req now c) = c
  /\ (forall p, snd (post req now c) <> Ok p)
  /\ closing (fst (post req now c)) = false
  /\ blocked (fst (post req now c)) = false
  /\ (forall req' now',
        snd (post req' now' (fst (post req now c))) <> Raise Blocked).
Proof.
  intros Hlen Hp Hb Hn. rewrite post_unfold.
  apply Z.leb_le in Hlen. rewrite Hlen, Hp, Hb, Hn. cbn [fst snd].
  split; [done|]. split; [intros p; discriminate|].
  split; [|split; [done|]].
  - unfold blocked in Hb. by destruct (closing c).
  - intros req' now'. rewrite post_unfold, Hb, Hn.
    destruct (Z.of_nat (length (Request.body req')) <=? _);
      [|cbn [snd]; congruence].
    destruct (past now' _); cbn [snd]; congruence.
Qed.

End post_checks.

Lemma post_after_deadline_witness :
  post (Sample.request (At 10)) 11 Sample.opened
  = (Sample.opened, Raise Timeout).
Proof.
  apply (post_after_deadline Sample.opened (Sample.request (At 10)) 11 10).
  - by vm_compute.
  - reflexivity.
  - reflexivity.
Defined.

(** C2 fails at the boundary [deadline == now]: the test is [now >
    req.deadline], so the call goes on, takes stream 1, queues its frames
    and suspends with a timeout of zero. *)
Lemma post_at_deadline_sends :
  (10 <= 10)%Q
  /\ snd (post (Sample.request (At 10)) 10 Sample.opened)
     = Ok (Await 1 (At (10 - 10)%Q))
  /\ is_Some (channels (fst (post (Sample.request (At 10)) 10 Sample.opened))
              !! 1)
  /\ FakeH2.outbox
       (conn (fst (post (Sample.request (At 10)) 10 Sample.opened)))
     = (FakeH2.outbox (conn Sample.opened)
        ++ [b "HEADERS"; b "WINDOW_UPDATE"; b "{}"])%list
  /\ written
       (background_write (Ok tt)
          (fst (post (Sample.request (At 10)) 10 Sample.opened)))
     = [concat [b "PRI * HTTP/2.0"; b "WINDOW_UPDATE";
                b "HEADERS"; b "WINDOW_UPDATE"; b "{}"]].
Proof.
  split; [by vm_compute|]. split; [reflexivity|].
  split; [by eexists|]. split; reflexivity.
Qed.

Lemma post_exhausted_witness :
  let c := Sample.with_engine Sample.engine_exhausted in
  fst (post (Sample.request Inf) 0 c) = c
  /\ closing (fst (post (Sample.request Inf) 0 c)) = false
  /\ blocked (fst (post (Sample.request Inf) 0 c)) = false
  /\ snd (post (Sample.request (At 10)) 1
            (fst (post (Sample.request Inf) 0 c))) <> Raise Blocked.
Proof.
  intros c.
  destruct (post_exhausted c (Sample.request Inf) 0)
    as (H1 & _ & H3 & H4 & H5); try reflexivity.
  - by vm_compute.
  - split; [exact H1|]. split; [exact H3|]. split; [exact H4|apply H5].
Defined.

(** C7 fails: the post that meets the exhausted identifiers does not fail
    with [Closed] (matching the handler raises [AttributeError]); after it
    [closing] is unset and [blocked] false, and the next post is not turned
    away as [Blocked]. *)
Lemma post_exhausted_not_closing :
  let c := Sample.with_engine Sample.engine_exhausted in
  let c' := fst (post (Sample.request Inf) 0 c) in
  snd (post (Sample.request Inf) 0 c) = Raise AttributeError
  /\ closing c' = false
  /\ blocked c' = false
  /\ snd (post (Sample.request Inf) 1 c') <> Raise Blocked.
Proof. repeat split. discriminate. Qed.

(** ** The lifecycle flags *)

Create HintDb quiet.

Section flags.
Context {K : Type} `{!H2Connection K}.
Implicit Type c : Connection.t K.
Variable int : string -> res Z.
Variable loads : bytes -> decoded.

Lemma quiet_step_refl c : quiet_step c c.
Proof. by split. Qed.

Lemma quiet_step_trans c1 c2 c3 :
  quiet_step c1 c2 -> quiet_step c2 c3 -> quiet_step c1 c3.
Proof. intros [H1 H2] [H3 H4]. split; [congruence|auto]. Qed.

Lemma quiet_ret {A} (a : A) : quiet (ret (K:=K) a).
Proof. intros c. apply quiet_step_refl. Qed.

Lemma quiet_raise {A} e : quiet (raise (K:=K) (A:=A) e).
Proof. intros c. apply quiet_step_refl. Qed.

Lemma quiet_gets {A} (f : t K -> A) : quiet (gets f).
Proof. intros c. apply quiet_step_refl. Qed.

Lemma quiet_lift {A} (r : res A) : quiet (lift (K:=K) r).
Proof. intros c. apply quiet_step_refl. Qed.

Lemma quiet_bind {A B} (m : M K A) (f : A -> M K B) :
  quiet m -> (forall a, quiet (f a)) -> quiet (bind m f).
Proof.
  intros Hm Hf c. unfold bind. specialize (Hm c).
  destruct (m c) as [c' [a|e]]; [|done].
  eapply quiet_step_trans; [exact Hm|apply Hf].
Qed.

Lemma quiet_modify (f : t K -> t K) :
  (forall c, quiet_step c (f c)) -> quiet (modify f).
Proof. intros Hf c. apply Hf. Qed.

Lemma quiet_codec {A} (op : K -> K * res A) : quiet (codec op).
Proof. intros c. unfold codec. destruct (op (conn c)). by split. Qed.

Lemma quiet_assert cond : quiet (assert_ (K:=K) cond).
Proof. destruct cond; [apply quiet_ret|apply quiet_raise]. Qed.

Lemma quiet_raise_if cond e : quiet (raise_if (K:=K) cond e).
Proof. destruct cond; [apply quiet_raise|apply quiet_ret]. Qed.

Lemma quiet_del_channel sid : quiet (del_channel (K:=K) sid).
Proof. intros c. unfold del_channel. destruct (_ !! _); by split. Qed.

Lemma quiet_the_channel sid : quiet (the_channel (K:=K) sid).
Proof. intros c. unfold the_channel. destruct (_ !! _); by split. Qed.

Lemma quiet_try_finally_del sid (m : M K progress) :
  quiet m -> quiet (try_finally_del sid m).
Proof.
  intros Hm c. unfold try_finally_del. specialize (Hm c).
  destruct (m c) as [c' r]. simpl in Hm.
  pose proof (quiet_del_channel sid c') as Hd.
  destruct r as [[]|]; [done|..];
    destruct (del_channel sid c') as [c'' []];
    simpl in *; eapply quiet_step_trans; eauto.
Qed.

#[local] Hint Resolve quiet_ret quiet_raise quiet_gets quiet_lift quiet_codec
  quiet_assert quiet_raise_if quiet_del_channel quiet_the_channel : quiet.

(** Takes a segment apart along its binds and branches. *)
Ltac quiet :=
  repeat first
    [ apply quiet_bind; [|intros ?]
    | apply quiet_try_finally_del
    | apply quiet_modify; intros ?; by split
    | solve [auto with quiet]
    | match goal with |- quiet (match ?x with _ => _ end) => destruct x end
    | match goal with |- quiet (if ?x then _ else _) => destruct x end
    | match goal with |- quiet (let '(_, _) := ?x in _) => destruct x end ].

Lemma quiet_post req now : quiet (post (K:=K) req now).
Proof. unfold post. quiet. Qed.

Lemma quiet_post_resume req sid now :
  quiet (post_resume (K:=K) int loads req sid now).
Proof. unfold post_resume. quiet. Qed.

Lemma quiet_post_cancel req sid now :
  quiet (post_cancel (K:=K) int loads req sid now).
Proof.
  intros c. unfold post_cancel.
  destruct (Channel.fut <$> channels c !! sid) as [[[]|]|];
    try apply quiet_post_resume;
    by apply quiet_try_finally_del, quiet_raise.
Qed.

Lemma quiet_dispatch_all evs : quiet (dispatch_all (K:=K) evs).
Proof. induction evs; simpl; quiet. Qed.

Lemma quiet_background_read_data data c :
  data <> [] -> quiet_step c (background_read (Ok data) c).
Proof.
  intros Hne. unfold background_read. destruct data as [|x data]; [done|].
  pose proof (quiet_codec (fun k => receive_data k (x :: data)) c) as H1.
  destruct (codec _ c) as [c1 [evs|e]]; simpl in H1.
  - pose proof (quiet_dispatch_all evs c1) as H2.
    destruct (dispatch_all evs c1) as [c2 [[]|e]]; simpl in H2.
    + assert (quiet_step c (set_please_write true c2)) as H3.
      { eapply quiet_step_trans; [exact H1|].
        eapply quiet_step_trans; [exact H2|]. by split. }
      destruct (closed (set_please_write true c2)); [|done].
      eapply quiet_step_trans; [exact H3|by split].
    + eapply quiet_step_trans; [exact H1|].
      eapply quiet_step_trans; [exact H2|by split].
  - eapply quiet_step_trans; [exact H1|by split].
Qed.

Lemma quiet_background_write d c : quiet_step c (background_write d c).
Proof.
  unfold background_write. destruct (closed c) eqn:E; [by split|].
  destruct (data_to_send (conn c)) as [k [|x data]].
  - destruct (please_write _); by split.
  - destruct d; by split.
Qed.

Lemma quiet_step_inv c c' pc :
  quiet_step c c' -> lifecycle_inv (c, pc) -> lifecycle_inv (c', pc).
Proof.
  intros [H1 H2] [H3 H4]. split; simpl in *.
  - rewrite H1. auto.
  - auto.
Qed.

(** Every segment keeps the flags it finds set, and keeps the invariant. *)
Lemma step_flags s s' :
  Sched.step int loads s s' ->
  ((closing (fst s) = true -> closing (fst s') = true)
   /\ (closed (fst s) = true -> closed (fst s') = true))
  /\ (lifecycle_inv s -> lifecycle_inv s').
Proof.
  assert (Hq : forall c c' pc, quiet_step c c' ->
    ((closing c = true -> closing c' = true)
     /\ (closed c = true -> closed c' = true))
    /\ (lifecycle_inv (c, pc) -> lifecycle_inv (c', pc))).
  { intros c c' pc Hs. split; [|by apply quiet_step_inv].
    destruct Hs as [H1 H2]. split; [done|congruence]. }
  destruct 1; simpl.
  - apply Hq, quiet_post.
  - apply Hq, quiet_post_resume.
  - apply Hq, quiet_post_cancel.
  - apply Hq. unfold background_read_start. destruct (closed c); by split.
  - destruct r as [[|x data]|e].
    + split; [by split|]. intros _. by split.
    + by apply Hq, quiet_background_read_data.
    + apply Hq. by split.
  - apply Hq, quiet_background_write.
  - split; [by split|]. intros [H1 _]. by split.
  - split; [by split|]. intros [H1 H2]. by split.
  - split; [by split|]. intros [H1 H2]. by split.
  - split; [by split|]. intros [H1 H2]. split; simpl; auto.
Qed.

Lemma aenter_flags tr c :
  __aenter__ tr = Ok c -> closed c = false /\ closing c = false.
Proof.
  unfold __aenter__. destruct tr as [proto|e]; [|done].
  destruct (bool_decide _); [|done].
  destruct (increment_flow_control_window _ _ _) as [k [[]|e]]; [|done].
  by intros [= <-].
Qed.

Lemma reachable_inv s : Sched.reachable int loads s -> lifecycle_inv s.
Proof.
  induction 1 as [tr c Ho|s s' _ IH Hs].
  - apply aenter_flags in Ho as [H1 H2]. split; simpl; [congruence|done].
  - by apply (step_flags s s').
Qed.

(** C9: [__aenter__] leaves both flags unset; no segment of [post], of the
    reader, of the writer or of [__aexit__] takes a set flag back to false;
    and in every state the connection reaches, [closed] is set only if
    [closing] is. *)
Theorem lifecycle_flags_monotone :
  (forall tr c, __aenter__ tr = Ok c -> closed c = false /\ closing c = false)
  /\ (forall s s', Sched.step int loads s s' ->
        (closing (fst s) = true -> closing (fst s') = true)
        /\ (closed (fst s) = true -> closed (fst s') = true))
  /\ (forall s, Sched.reachable int loads s ->
        closed (fst s) = true -> closing (fst s) = true).
Proof.
  split; [exact aenter_flags|]. split.
  - intros s s' Hs. by apply step_flags.
  - intros s Hr. by apply reachable_inv.
Qed.

End flags.

(** End of stream right after opening: the reader sets [closed], and
    [closing] is set with it. *)
Lemma lifecycle_flags_monotone_witness :
  closed (background_read (Ok []) Sample.opened) = true
  /\ closing (background_read (Ok []) Sample.opened) = true.
Proof.
  split; [reflexivity|].
  apply (proj2 (proj2 (lifecycle_flags_monotone PyInt.int FakeJSON.loads))
           (background_read (Ok []) Sample.opened, Sched.InScope)).
  - eapply Sched.reachable_step.
    + apply (Sched.reachable_open PyInt.int FakeJSON.loads (Ok (Some "h2"))).
      reflexivity.
    + apply (Sched.step_read PyInt.int FakeJSON.loads (Ok [])). reflexivity.
  - reflexivity.
Defined.

(** ** Events, wake-ups and the stream table *)

Section streams.
Context {K : Type} `{!H2Connection K}.
Implicit Type c : Connection.t K.
Variable int : string -> res Z.
Variable loads : bytes -> decoded.

Lemma lookup_update_channel sid f c :
  channels (update_channel sid f c) !! sid = f <$> channels c !! sid.
Proof. unfold update_channel. simpl. apply lookup_alter_eq. Qed.

(** The reader hands a stream event to the record of its stream. *)
Lemma dispatch_stream_event e c ch f :
  stream_event e = true ->
  stream_id_of e <> 0 ->
  channels c !! stream_id_of e = Some ch ->
  Channel.fut ch = Some f ->
  snd (dispatch e c) = Ok tt
  /\ closing (fst (dispatch e c)) = closing c
  /\ channels (fst (dispatch e c)) !! stream_id_of e = Some (delivered e ch).
Proof.
  intros He Hsid Hch Hf.
  assert (Hz : (stream_id_of e =? 0) = false) by by apply Z.eqb_neq.
  unfold dispatch, delivered.
  destruct e; try discriminate He; cbn [stream_id_of error_code_of] in *;
    unfold bind, gets, modify, ret; cbn [fst snd];
    rewrite Hch, Hf, ?Hz; destruct f; cbn [done andb fst snd];
    rewrite ?lookup_update_channel, ?Hch, ?lookup_update_channel, ?Hch; done.
Qed.

Lemma delivered_fut e ch :
  is_Some (Channel.fut ch) -> is_Some (Channel.fut (delivered e ch)).
Proof. intros [f Hf]. unfold delivered. rewrite Hf. by destruct f. Qed.

Lemma dispatch_all_stream_events sid evs : forall c ch,
  Forall (fun e => stream_event e = true /\ stream_id_of e = sid) evs ->
  sid <> 0 ->
  channels c !! sid = Some ch ->
  is_Some (Channel.fut ch) ->
  snd (dispatch_all evs c) = Ok tt
  /\ closing (fst (dispatch_all evs c)) = closing c
  /\ channels (fst (dispatch_all evs c)) !! sid
     = Some (fold_left (fun ch e => delivered e ch) evs ch).
Proof.
  induction evs as [|e evs IH]; intros c ch Hall Hsid Hch Hfut; [done|].
  apply Forall_cons in Hall as [[He <-] Hall].
  destruct Hfut as [f Hf].
  destruct (dispatch_stream_event e c ch f He Hsid Hch Hf) as (H1 & H2 & H3).
  cbn [dispatch_all fold_left]. unfold bind.
  destruct (dispatch e c) as [c1 r1]. cbn [fst snd] in *. subst r1.
  destruct (IH c1 (delivered e ch) Hall Hsid H3) as (H4 & H5 & H6).
  { apply delivered_fut. by exists f. }
  by rewrite H4, H5, H6, H2.
Qed.

(** [post_resume] when the reader has completed the waiter, or
    [wait_for] had cancelled it on entry, before the deadline: the outcome
    is read off the scan of the whole buffer. *)
Lemma post_resume_woken req sid now c ch :
  channels c !! sid = Some ch ->
  Channel.fut ch = Some FResult \/ Channel.fut ch = Some FCancelled ->
  past now (Request.deadline req) = false ->
  let out := post_resume int loads req sid now c in
  let ch' := fst (Channel.scan (Channel.ev ch) ch) in
  if snd (Channel.scan (Channel.ev ch) ch) then
    snd out = res_map Return
                (Response.new int loads (Channel.header ch') (Channel.body ch'))
    /\ channels (fst out) !! sid = None
  else if closing c then
    snd out = Raise Closed /\ channels (fst out) !! sid = None
  else
    snd out = Ok (Await sid (remaining (Request.deadline req) now))
    /\ closing (fst out) = false
    /\ channels (fst out) !! sid
       = Some (Channel.set_fut
                 (Some (if run_out (remaining (Request.deadline req) now)
                        then FCancelled else FPending)) ch').
Proof.
  intros Hch Hf Hp. cbn zeta.
  unfold post_resume, try_finally_del, bind, the_channel.
  rewrite Hch.
  assert (Hm : (match Channel.fut ch with
                | Some FResult => ret tt
                | Some FPending =>
                    modify (update_channel sid
                              (Channel.set_fut (Some FCancelled)))
                | Some (FException e) => raise e
                | Some FCancelled => ret tt
                | None => raise (Other "TypeError")
                end) c = (c, Ok tt)).
  { by destruct Hf as [-> | ->]. }
  rewrite Hm. unfold raise_if. rewrite Hp. cbn [ret].
  rewrite Hch.
  destruct (Channel.scan (Channel.ev ch) ch) as [ch' ended]. cbn [fst snd].
  unfold modify.
  destruct ended.
  - unfold lift, del_channel.
    destruct (Response.new _ _ _) as [r|e]; cbn [ret fst snd];
      rewrite lookup_update_channel, Hch;
      cbn [fmap option_fmap option_map fst snd];
      split; try done; apply lookup_delete_eq.
  - unfold wait, bind, gets. cbn [closing update_channel set_channels].
    destruct (closing c) eqn:Hc.
    + unfold raise, del_channel. cbn [fst snd].
      rewrite lookup_update_channel, Hch.
      cbn [fmap option_fmap option_map fst snd].
      split; [done|]. apply lookup_delete_eq.
    + unfold modify, ret. cbn [fst snd].
      rewrite !lookup_update_channel, Hch. done.
Qed.

(** [post_resume] after the deadline. *)
Lemma post_resume_late req sid now c ch :
  channels c !! sid = Some ch ->
  Channel.fut ch = Some FResult \/ Channel.fut ch = Some FPending
  \/ Channel.fut ch = Some FCancelled ->
  past now (Request.deadline req) = true ->
  snd (post_resume int loads req sid now c) = Raise Timeout
  /\ channels (fst (post_resume int loads req sid now c)) !! sid = None.
Proof.
  intros Hch Hf Hp.
  unfold post_resume, try_finally_del, bind, the_channel.
  rewrite Hch. destruct Hf as [-> | [-> | ->]]; cbn [ret modify];
    unfold raise_if; rewrite Hp; cbn [raise del_channel];
    unfold del_channel; rewrite ?lookup_update_channel, Hch;
    cbn [fmap option_fmap option_map fst snd]; (split; [done|]);
    apply lookup_delete_eq.
Qed.

(** [post_resume] when the waiter was failed with [Closed]. *)
Lemma post_resume_released req sid now c ch :
  channels c !! sid = Some ch ->
  Channel.fut ch = Some (FException Closed) ->
  snd (post_resume int loads req sid now c) = Raise Closed
  /\ channels (fst (post_resume int loads req sid now c)) !! sid = None.
Proof.
  intros Hch Hf.
  unfold post_resume, try_finally_del, bind, the_channel.
  rewrite Hch, Hf. cbn [raise]. unfold del_channel. rewrite Hch.
  split; [done|]. apply lookup_delete_eq.
Qed.

Lemma scan_without_StreamEnded evs : forall ch,
  (forall s, StreamEnded s ∉ evs) ->
  snd (Channel.scan evs ch) = false.
Proof.
  induction evs as [|e evs IH]; intros ch Hno; [done|].
  assert (Hno' : forall s, StreamEnded s ∉ evs).
  { intros s Hin. apply (Hno s). by right. }
  destruct e; cbn [Channel.scan]; try by apply IH.
  exfalso. eapply Hno. left.
Qed.

(** A segment that leaves the [try] leaves no record behind. *)
Lemma try_finally_del_cleanup sid (m : M K progress) c :
  (forall s tmo, snd (try_finally_del sid m c) <> Ok (Await s tmo)) ->
  channels (fst (try_finally_del sid m c)) !! sid = None.
Proof.
  unfold try_finally_del, del_channel.
  destruct (m c) as [c' [[s tmo|r]|e]]; cbn [fst snd].
  - intros Hne. by destruct (Hne s tmo).
  - intros _. destruct (channels c' !! sid) eqn:E;
      cbn [fst snd channels set_channels]; [apply lookup_delete_eq|done].
  - intros _. destruct (channels c' !! sid) eqn:E;
      cbn [fst snd channels set_channels]; [apply lookup_delete_eq|done].
Qed.

(** Once the call is in its wait loop, every way out removes the record:
    a response, [Timeout], [Closed], [FormatError], cancellation. *)
Lemma post_resume_cleanup req sid now c :
  (forall s tmo, snd (post_resume int loads req sid now c) <> Ok (Await s tmo)) ->
  channels (fst (post_resume int loads req sid now c)) !! sid = None.
Proof. apply try_finally_del_cleanup. Qed.

Lemma post_cancel_cleanup req sid now c :
  (forall s tmo,
     snd (post_cancel int loads req sid now c) <> Ok (Await s tmo)) ->
  channels (fst (post_cancel int loads req sid now c)) !! sid = None.
Proof.
  unfold post_cancel.
  destruct (Channel.fut <$> channels c !! sid) as [[[]|]|];
    try apply post_resume_cleanup; apply try_finally_del_cleanup.
Qed.

(** A cancellation that finds the waiter pending ends the call. *)
Lemma post_cancel_pending req sid now c ch :
  channels c !! sid = Some ch ->
  Channel.fut ch = Some FPending ->
  snd (post_cancel int loads req sid now c) = Raise CancelledError.
Proof.
  intros Hch Hf. unfold post_cancel. rewrite Hch. cbn [fmap option_fmap
    option_map]. rewrite Hf.
  unfold try_finally_del, raise, del_channel. by rewrite Hch.
Qed.

(** End of stream: both flags are set, the reader is over, and every
    pending waiter is failed with [Closed]. *)
Lemma background_read_eof c :
  let c' := background_read (Ok []) c in
  closed c' = true /\ closing c' = true /\ bgr c' = Finished
  /\ forall sid, channels c' !! sid = Channel.release <$> channels c !! sid.
Proof. cbn. repeat split. intros sid. apply lookup_fmap. Qed.

(** C1, on the inputs where it fails: the body is sent as [d1] then [d2].
    When all events are in the buffer at one wake-up the response is built
    from [d1 ++ d2]. When [d1] is there at a first wake-up and the end of
    the stream at a second, the second scan starts again at the head of the
    buffer and the response is built from [d1 ++ d1 ++ d2]. *)
Theorem post_counts_data_again c sid req h d1 d2 now1 now2 :
  sid <> 0 ->
  channels c !! sid = Some (Channel.mk sid (Some FPending) [] None []) ->
  closing c = false ->
  past now1 (Request.deadline req) = false ->
  past now2 (Request.deadline req) = false ->
  let arrive evs c := fst (dispatch_all evs c) in
  let first :=
    post_resume int loads req sid now1
      (arrive [ResponseReceived sid h; DataReceived sid d1] c) in
  let second :=
    post_resume int loads req sid now2
      (arrive [DataReceived sid d2; StreamEnded sid] (fst first)) in
  let once :=
    post_resume int loads req sid now1
      (arrive [ResponseReceived sid h; DataReceived sid d1;
               DataReceived sid d2; StreamEnded sid] c) in
  snd first = Ok (Await sid (remaining (Request.deadline req) now1))
  /\ snd second
     = res_map Return
         (Response.new int loads (Some (Dict.of_items h)) (d1 ++ d1 ++ d2)%list)
  /\ snd once
     = res_map Return
         (Response.new int loads (Some (Dict.of_items h)) (d1 ++ d2)%list).
Proof.
  intros Hsid Hch Hcl Hp1 Hp2 arrive first second once.
  assert (Hev : forall evs : list event,
    Forall (fun e => stream_event e = true /\ stream_id_of e = sid) evs ->
    forall c0 ch0,
      channels c0 !! sid = Some ch0 -> is_Some (Channel.fut ch0) ->
      closing (arrive evs c0) = closing c0
      /\ channels (arrive evs c0) !! sid
         = Some (fold_left (fun ch e => delivered e ch) evs ch0)).
  { intros evs Hall c0 ch0 H0 Hf0.
    by destruct (dispatch_all_stream_events sid evs c0 ch0 Hall Hsid H0 Hf0)
      as (_ & ? & ?). }
  (* the first wake-up *)
  destruct (Hev [ResponseReceived sid h; DataReceived sid d1]
              ltac:(repeat constructor) c _ Hch ltac:(by eexists))
    as [Hc1 Hl1].
  pose proof (post_resume_woken req sid now1 _ _ Hl1 (or_introl eq_refl) Hp1)
    as H1.
  cbn in H1. rewrite Hc1, Hcl in H1. fold first in H1.
  destruct H1 as (Hr1 & Hcl1 & Hl2).
  (* the second wake-up: the waiter armed at the first one holds a result,
     or was cancelled on entry when the deadline was the clock reading *)
  assert (Hr2 : snd second
                = res_map Return
                    (Response.new int loads (Some (Dict.of_items h))
                       ((d1 ++ d1) ++ d2)%list)).
  { destruct (run_out (remaining (Request.deadline req) now1));
      destruct (Hev [DataReceived sid d2; StreamEnded sid]
                  ltac:(repeat constructor) (fst first) _ Hl2
                  ltac:(by eexists)) as [Hc2 Hl3].
    - pose proof (post_resume_woken req sid now2 _ _ Hl3
                    (or_intror eq_refl) Hp2) as H2.
      cbn in H2. fold second in H2. by destruct H2 as [Hr2 _].
    - pose proof (post_resume_woken req sid now2 _ _ Hl3
                    (or_introl eq_refl) Hp2) as H2.
      cbn in H2. fold second in H2. by destruct H2 as [Hr2 _]. }
  (* everything at one wake-up *)
  destruct (Hev [ResponseReceived sid h; DataReceived sid d1;
                 DataReceived sid d2; StreamEnded sid]
              ltac:(repeat constructor) c _ Hch ltac:(by eexists))
    as [Hc3 Hl4].
  pose proof (post_resume_woken req sid now1 _ _ Hl4 (or_introl eq_refl) Hp1)
    as H3.
  cbn in H3. fold once in H3. destruct H3 as [Hr3 _].
  split; [exact Hr1|]. split.
  - rewrite Hr2. by rewrite <- app_assoc.
  - exact Hr3.
Qed.

(** C4, on the inputs where it fails: a [StreamReset] delivered to a
    waiting [post] (the stream not ended, [closing] unset) completes its
    waiter, so the post wakes up; the scan of the buffer has no branch for
    the event, and at a wake-up within the deadline the call does not fail
    with [Closed]: it arms a new waiter and suspends again, [closing] still
    unset. Without a deadline nothing wakes that waiter. *)
Theorem post_passes_over_StreamReset c sid ch req code now :
  sid <> 0 ->
  channels c !! sid = Some ch ->
  Channel.fut ch = Some FPending ->
  (forall s, StreamEnded s ∉ Channel.ev ch) ->
  closing c = false ->
  past now (Request.deadline req) = false ->
  let c' := fst (dispatch (StreamReset sid code) c) in
  let out := post_resume int loads req sid now c' in
  (exists ch', channels c' !! sid = Some ch'
               /\ Channel.fut ch' = Some FResult
               /\ StreamReset sid code ∈ Channel.ev ch')
  /\ wakeable req sid now c' = true
  /\ snd out = Ok (Await sid (remaining (Request.deadline req) now))
  /\ closing (fst out) = false
  /\ (Request.deadline req = Inf ->
      forall now', wakeable req sid now' (fst out) = false).
Proof.
  intros Hsid Hch Hf Hno Hcl Hp c' out.
  destruct (dispatch_stream_event (StreamReset sid code) c ch FPending
              eq_refl Hsid Hch Hf) as (_ & Hc & Hl).
  cbn [stream_id_of] in Hl. fold c' in Hc, Hl.
  unfold delivered in Hl. rewrite Hf in Hl.
  set (ch1 := Channel.set_fut (Some FResult)
                (Channel.append (StreamReset sid code) ch)) in *.
  split; [|split].
  - exists ch1. split; [done|]. split; [done|].
    cbn. apply elem_of_app. right. by left.
  - unfold wakeable. by rewrite Hl.
  - pose proof (post_resume_woken req sid now c' ch1 Hl (or_introl eq_refl)
                  Hp) as H1.
    cbn zeta in H1. rewrite scan_without_StreamEnded in H1.
    + rewrite Hc, Hcl in H1. fold out in H1. destruct H1 as (H1 & H2 & H3).
      split; [done|]. split; [done|].
      intros Hd now'. unfold wakeable. rewrite H3, Hd. reflexivity.
    + intros s Hin. cbn in Hin. apply elem_of_app in Hin as [Hin|Hin].
      * by apply (Hno s).
      * apply list_elem_of_singleton in Hin. discriminate.
Qed.

(** C5, on the inputs where it fails: when [read] raises, or
    [receive_data] raises on what was read, the reader ends with the flags
    as they were and the records untouched; a waiter that was pending stays
    pending, and a [post] without a deadline is not woken again. *)
Theorem background_read_failure_strands_waiters c r e sid ch req :
  r = Raise e
  \/ (exists data k, r = Ok data /\ data <> []
                     /\ receive_data (conn c) data = (k, Raise e)) ->
  channels c !! sid = Some ch ->
  Channel.fut ch = Some FPending ->
  Request.deadline req = Inf ->
  let c' := background_read r c in
  closed c' = closed c /\ closing c' = closing c /\ bgr c' = Finished
  /\ channels c' !! sid = Some ch
  /\ forall now, wakeable req sid now c' = false.
Proof.
  intros Hr Hch Hf Hd c'.
  assert (Hc : closed c' = closed c /\ closing c' = closing c
               /\ bgr c' = Finished /\ channels c' = channels c).
  { destruct Hr as [-> | (data & k & -> & Hne & Hrcv)]; subst c'.
    - done.
    - unfold background_read, codec. destruct data; [done|].
      by rewrite Hrcv. }
  destruct Hc as (H1 & H2 & H3 & H4).
  repeat split; try done.
  - by rewrite H4.
  - intros now. unfold wakeable. by rewrite H4, Hch, Hf, Hd.
Qed.

(** C6, on the inputs where it fails: the record is entered in the table
    before the frames are handed to the engine, and the [try] starts after
    them; when [send_headers] or [send_data] raises, [post] raises the same
    exception and the record stays in the table. *)
Theorem post_send_failure_keeps_record c req now sid k e :
  Z.of_nat (length (Request.body req)) <= MAX_NOTIFICATION_PAYLOAD_SIZE ->
  past now (Request.deadline req) = false ->
  blocked c = false ->
  get_next_available_stream_id (conn c) = Some sid ->
  channels c !! sid = None ->
  send_headers (conn c) sid (Request.header req) false = (k, Raise e)
  \/ (exists k1 k2,
        send_headers (conn c) sid (Request.header req) false = (k1, Ok tt)
        /\ increment_flow_control_window k1 (2 ^ 16) (Some sid) = (k2, Ok tt)
        /\ send_data k2 sid (Request.body req) true = (k, Raise e)) ->
  snd (post req now c) = Raise e
  /\ channels (fst (post req now c)) !! sid
     = Some (Channel.mk sid None [] None []).
Proof.
  intros Hlen Hp Hb Hn Hfree Hsend.
  apply Z.leb_le in Hlen.
  unfold post, bind, assert_, raise_if, gets. rewrite Hlen. cbn [ret].
  rewrite Hp. cbn [ret]. rewrite Hb. cbn [ret]. rewrite Hn. cbn [ret].
  rewrite Hfree. rewrite bool_decide_eq_true_2 by done. cbn [ret modify].
  unfold codec. cbn [conn set_channels].
  destruct Hsend as [Hh | (k1 & k2 & Hh & Hw & Hd)].
  - rewrite Hh. cbn. split; [done|]. apply lookup_insert_eq.
  - rewrite Hh. cbn [conn set_conn]. rewrite Hw. cbn [conn set_conn].
    rewrite Hd. cbn. split; [done|]. apply lookup_insert_eq.
Qed.

End streams.

(** ** The same on concrete runs *)

(** Stream 1 answers 400 with the body [12], sent as [1] and [2]: in one
    wake-up the data is 12, over two wake-ups it is 112. *)
Lemma post_counts_data_again_witness :
  let arrive evs c := fst (dispatch_all evs c) in
  let req := Sample.request (At 10) in
  let h := [(":status", "400")] in
  let first :=
    post_resume PyInt.int FakeJSON.loads req 1 1
      (arrive [ResponseReceived 1 h; DataReceived 1 (b "1")] Sample.posted) in
  snd (post_resume PyInt.int FakeJSON.loads req 1 2
         (arrive [DataReceived 1 (b "2"); StreamEnded 1] (fst first)))
  = Ok (Return (Response.mk 400 [] (PyInt 112)))
  /\ snd (post_resume PyInt.int FakeJSON.loads req 1 1
            (arrive [ResponseReceived 1 h; DataReceived 1 (b "1");
                     DataReceived 1 (b "2"); StreamEnded 1] Sample.posted))
     = Ok (Return (Response.mk 400 [] (PyInt 12))).
Proof.
  destruct (post_counts_data_again PyInt.int FakeJSON.loads Sample.posted 1
              (Sample.request (At 10)) [(":status", "400")] (b "1") (b "2")
              1 2) as (_ & H2 & H3);
    [done|reflexivity|reflexivity|reflexivity|reflexivity|].
  split; [exact H2|exact H3].
Defined.

(** Stream 1 is reset by the peer (error code 8) one second after a post
    at time 0 that has no deadline: on waking, the post does not fail with [Closed],
    it suspends again, and nothing wakes it. *)
Lemma post_passes_over_StreamReset_witness :
  let c := fst (post (Sample.request Inf) 0 Sample.opened) in
  let c' := fst (dispatch (StreamReset 1 8) c) in
  let out := post_resume PyInt.int FakeJSON.loads (Sample.request Inf) 1 1 c' in
  wakeable (Sample.request Inf) 1 1 c' = true
  /\ snd out = Ok (Await 1 Inf)
  /\ closing (fst out) = false
  /\ forall now', wakeable (Sample.request Inf) 1 now' (fst out) = false.
Proof.
  intros c c' out.
  destruct (post_passes_over_StreamReset PyInt.int FakeJSON.loads
              c 1 (Channel.mk 1 (Some FPending) [] None [])
              (Sample.request Inf) 8 1)
    as (_ & H2 & H3 & H4 & H5);
    [done|reflexivity|reflexivity|intros s Hin; inversion Hin
    |reflexivity|reflexivity|].
  split; [exact H2|]. split; [exact H3|]. split; [exact H4|].
  apply H5. reflexivity.
Defined.

(** The same with a deadline: stream 1 is reset one second after the post,
    nine seconds before its deadline; on waking, the post does not fail
    with [Closed], it suspends again until the deadline. *)
Example post_after_StreamReset_waits :
  let c' := fst (dispatch (StreamReset 1 8) Sample.posted) in
  let out := post_resume PyInt.int FakeJSON.loads (Sample.request (At 10)) 1 1 c' in
  closing c' = false
  /\ wakeable (Sample.request (At 10)) 1 1 c' = true
  /\ snd out = Ok (Await 1 (At (10 - 1)%Q))
  /\ snd out <> Raise Closed.
Proof. repeat split. discriminate. Qed.

Lemma background_read_failure_strands_waiters_witness :
  let c' :=
    background_read (Raise (Other "ConnectionResetError")) Sample.posted in
  closed c' = false /\ closing c' = false /\ bgr c' = Finished
  /\ channels c' !! 1 = Some (Channel.mk 1 (Some FPending) [] None [])
  /\ forall now, wakeable (Sample.request Inf) 1 now c' = false.
Proof.
  apply (background_read_failure_strands_waiters Sample.posted
           (Raise (Other "ConnectionResetError"))
           (Other "ConnectionResetError") 1
           (Channel.mk 1 (Some FPending) [] None []) (Sample.request Inf)).
  - by left.
  - reflexivity.
  - reflexivity.
  - reflexivity.
Defined.

(** The peer allows one byte per stream; the body has two. *)
Lemma post_send_failure_keeps_record_witness :
  let c := Sample.with_engine Sample.engine_small_streams in
  blocked c = false
  /\ snd (post (Sample.request Inf) 0 c) = Raise (Other "FlowControlError")
  /\ channels (fst (post (Sample.request Inf) 0 c)) !! 1
     = Some (Channel.mk 1 None [] None []).
Proof.
  split; [reflexivity|].
  eapply (post_send_failure_keeps_record
            (Sample.with_engine Sample.engine_small_streams)
            (Sample.request Inf) 0 1 _ (Other "FlowControlError")).
  - by vm_compute.
  - reflexivity.
  - reflexivity.
  - reflexivity.
  - reflexivity.
  - right. do 2 eexists. repeat split.
Defined.

(** ** Scenarios through the reader *)

(** The peer answers 200 with an empty body: the response carries the
    status, the other headers and no data, and the table is empty again. *)
Example happy_path :
  let c0 := Sample.with_engine (Sample.engine_script
              [[ResponseReceived 1 [(":status", "200"); ("apns-id", "A1")];
                StreamEnded 1]]) in
  let c1 := fst (post (Sample.request (At 10)) 0 c0) in
  let c2 := background_read (Ok (b "frames")) c1 in
  let out := post_resume PyInt.int FakeJSON.loads (Sample.request (At 10)) 1 1 c2 in
  snd out = Ok (Return (Response.mk 200 [("apns-id", "A1")] PyNone))
  /\ channels (fst out) = ∅.
Proof. split; reflexivity. Qed.

(** The peer answers 400 with the body [12] in two DATA frames that come
    with two reads: the post is woken after each and returns 112. *)
Example two_reads_double_the_body :
  let c0 := Sample.with_engine (Sample.engine_script
              [[ResponseReceived 1 [(":status", "400")];
                DataReceived 1 (b "1")];
               [DataReceived 1 (b "2"); StreamEnded 1]]) in
  let c1 := fst (post (Sample.request (At 10)) 0 c0) in
  let c2 := background_read (Ok (b "frames")) c1 in
  let first := post_resume PyInt.int FakeJSON.loads (Sample.request (At 10)) 1 1 c2 in
  let c3 := background_read (Ok (b "frames")) (fst first) in
  let second := post_resume PyInt.int FakeJSON.loads (Sample.request (At 10)) 1 2 c3 in
  snd first = Ok (Await 1 (At (10 - 1)%Q))
  /\ snd second = Ok (Return (Response.mk 400 [] (PyInt 112))).
Proof. split; reflexivity. Qed.

(** The peer closes the transport while stream 1 waits: the post is woken
    and fails with [Closed]; its record is gone. *)
Example peer_closes :
  let c := background_read (Ok []) Sample.posted in
  let out := post_resume PyInt.int FakeJSON.loads (Sample.request (At 10)) 1 1 c in
  wakeable (Sample.request (At 10)) 1 1 c = true
  /\ snd out = Raise Closed
  /\ channels (fst out) = ∅.
Proof. repeat split. Qed.

(** * Further properties of the code *)

(** ** [post]: rejection, allocation, and the other streams *)

Section post_more.
Context {K : Type} `{!H2Connection K}.
Implicit Type c : Connection.t K.
Variable int : string -> res Z.
Variable loads : bytes -> decoded.

(** X1: a [post] of a body within the size cap, within its deadline, on a
    connection that is closing or closed, short of outbound window, or at
    its stream cap fails with [Blocked] and leaves the connection as it
    was: no stream identifier is taken and nothing is handed to the
    engine. *)
Theorem post_blocked_rejects c req now :
  Z.of_nat (length (Request.body req)) <= MAX_NOTIFICATION_PAYLOAD_SIZE ->
  past now (Request.deadline req) = false ->
  closing c = true \/ closed c = true
  \/ outbound_flow_control_window (conn c) <= REQUIRED_FREE_SPACE
  \/ open_outbound_streams (conn c) >= max_concurrent_streams c ->
  post req now c = (c, Raise Blocked).
Proof.
  intros Hlen Hp Hb. rewrite post_unfold.
  apply Z.leb_le in Hlen. rewrite Hlen, Hp.
  assert (blocked c = true) as ->; [|done].
  unfold blocked. rewrite !orb_true_iff, Z.leb_le, Z.geb_le. intuition lia.
Qed.




Lemma leaves_others_ret {A} sid (a : A) : leaves_others sid (ret (K:=K) a).
Proof. by intros c sid' _. Qed.

Lemma leaves_others_raise {A} sid e :
  leaves_others sid (raise (K:=K) (A:=A) e).
Proof. by intros c sid' _. Qed.

Lemma leaves_others_gets {A} sid (f : t K -> A) : leaves_others sid (gets f).
Proof. by intros c sid' _. Qed.

Lemma leaves_others_lift {A} sid (r : res A) :
  leaves_others sid (lift (K:=K) r).
Proof. by intros c sid' _. Qed.

Lemma leaves_others_codec {A} sid (op : K -> K * res A) :
  leaves_others sid (codec op).
Proof. intros c sid' _. unfold codec. by destruct (op (conn c)). Qed.

Lemma leaves_others_bind {A B} sid (m : M K A) (f : A -> M K B) :
  leaves_others sid m -> (forall a, leaves_others sid (f a)) ->
  leaves_others sid (bind m f).
Proof.
  intros Hm Hf c sid' Hne. unfold bind. specialize (Hm c sid' Hne).
  destruct (m c) as [c' [a|e]]; [|done].
  by rewrite (Hf a c' sid' Hne).
Qed.

Lemma leaves_others_update sid f :
  leaves_others sid (modify (K:=K) (update_channel sid f)).
Proof. intros c sid' Hne. cbn. apply lookup_alter_ne. congruence. Qed.

Lemma leaves_others_modify sid (f : t K -> t K) :
  (forall c, channels (f c) = channels c) -> leaves_others sid (modify f).
Proof. intros Hf c sid' _. cbn. by rewrite Hf. Qed.

Lemma leaves_others_insert sid ch :
  leaves_others sid
    (modify (K:=K) (fun c => set_channels (<[sid := ch]> (channels c)) c)).
Proof. intros c sid' Hne. cbn. apply lookup_insert_ne. congruence. Qed.

Lemma leaves_others_del sid : leaves_others sid (del_channel (K:=K) sid).
Proof.
  intros c sid' Hne. unfold del_channel.
  destruct (channels c !! sid); [|done]. cbn.
  apply lookup_delete_ne. congruence.
Qed.

Lemma leaves_others_the_channel sid :
  leaves_others sid (the_channel (K:=K) sid).
Proof.
  intros c sid' _. unfold the_channel. by destruct (channels c !! sid).
Qed.

Lemma leaves_others_try_finally_del sid (m : M K progress) :
  leaves_others sid m -> leaves_others sid (try_finally_del sid m).
Proof.
  intros Hm c sid' Hne. unfold try_finally_del. specialize (Hm c sid' Hne).
  destruct (m c) as [c' r]. cbn [fst] in Hm.
  pose proof (leaves_others_del sid c' sid' Hne) as Hd.
  destruct r as [[]|]; [done|..];
    destruct (del_channel sid c') as [c'' []]; cbn [fst] in *; congruence.
Qed.

Lemma leaves_others_assert sid cond :
  leaves_others sid (assert_ (K:=K) cond).
Proof.
  destruct cond; [apply leaves_others_ret|apply leaves_others_raise].
Qed.

Lemma leaves_others_raise_if sid cond e :
  leaves_others sid (raise_if (K:=K) cond e).
Proof.
  destruct cond; [apply leaves_others_raise|apply leaves_others_ret].
Qed.

(** Takes a segment apart and settles each piece with the lemmas above. *)
Ltac others :=
  repeat first
    [ apply leaves_others_bind; [|intros ?]
    | apply leaves_others_try_finally_del
    | apply leaves_others_update
    | apply leaves_others_insert
    | apply leaves_others_modify; intros ?; reflexivity
    | apply leaves_others_ret | apply leaves_others_raise
    | apply leaves_others_gets | apply leaves_others_lift
    | apply leaves_others_codec | apply leaves_others_del
    | apply leaves_others_the_channel | apply leaves_others_assert
    | apply leaves_others_raise_if
    | match goal with
      | |- leaves_others _ (match ?x with _ => _ end) => destruct x
      | |- leaves_others _ (if ?x then _ else _) => destruct x
      | |- leaves_others _ (let '(_, _) := ?x in _) => destruct x
      end ].

(** X3: a [post] touches no record but the one of the stream identifier
    the engine hands it, and a resumed or cancelled [post] touches no record
    but its own: the records of all other streams are as before. *)
Theorem post_leaves_other_streams c req sid now sid' :
  (get_next_available_stream_id (conn c) <> Some sid' ->
     channels (fst (post req now c)) !! sid' = channels c !! sid')
  /\ (sid' <> sid ->
        channels (fst (post_resume int loads req sid now c)) !! sid'
        = channels c !! sid'
        /\ channels (fst (post_cancel int loads req sid now c)) !! sid'
           = channels c !! sid').
Proof.
  split.
  - intros Hn. rewrite post_unfold.
    repeat match goal with |- context [if ?x then _ else _] => destruct x end;
      try done.
    destruct (get_next_available_stream_id (conn c)) as [s|] eqn:E; [|done].
    destruct (bool_decide _); [|done].
    assert (Hne : sid' <> s) by congruence.
    match goal with |- channels (fst (?m c)) !! _ = _ =>
      assert (leaves_others s m) as Hm end.
    { others. }
    by apply Hm.
  - intros Hne.
    assert (leaves_others sid (post_resume (K:=K) int loads req sid now))
      as Hm.
    { unfold post_resume, wait. others. }
    split; [by apply Hm|].
    unfold post_cancel.
    destruct (Channel.fut <$> channels c !! sid) as [[[]|]|];
      try (by apply Hm);
      by apply (leaves_others_try_finally_del sid _
                  (leaves_others_raise sid CancelledError)).
Qed.

End post_more.

Lemma post_blocked_rejects_witness :
  post (Sample.request Inf) 0 (Sample.with_engine (Sample.engine_window 6000))
  = (Sample.with_engine (Sample.engine_window 6000), Raise Blocked).
Proof.
  apply post_blocked_rejects.
  - by vm_compute.
  - reflexivity.
  - right. right. left. by vm_compute.
Defined.


(** A second post on the connection takes stream 3 and leaves the record
    of stream 1 alone. *)
Lemma post_leaves_other_streams_witness :
  channels (fst (post (Sample.request Inf) 1 Sample.posted)) !! 1
  = channels Sample.posted !! 1.
Proof.
  apply (post_leaves_other_streams PyInt.int FakeJSON.loads Sample.posted
           (Sample.request Inf) 3 1 1).
  by vm_compute.
Defined.

(** ** The reader: what an event changes *)

Section reader_more.
Context {K : Type} `{!H2Connection K}.
Implicit Type c : Connection.t K.

(** An event with no record to go to, that is no settings change and no
    connection-level error, changes nothing. *)
Lemma dispatch_absent e c :
  channels c !! stream_id_of e = None ->
  (forall cs, e = RemoteSettingsChanged cs ->
              cs !! MAX_CONCURRENT_STREAMS = None) ->
  stream_id_of e <> 0 \/ error_code_of e = None ->
  dispatch e c = (c, Ok tt).
Proof.
  intros Hch Hset Hsid.
  assert (Hz : (stream_id_of e =? 0) && bool_decide (error_code_of e ≠ None)
               = false).
  { destruct Hsid as [Hs| ->].
    - apply Z.eqb_neq in Hs. by rewrite Hs.
    - rewrite bool_decide_eq_false_2 by (intros ?; done).
      apply andb_false_r. }
  unfold dispatch, bind.
  assert (Hfirst : match e with
                   | RemoteSettingsChanged changed =>
                       match changed !! MAX_CONCURRENT_STREAMS with
                       | Some m => modify (set_max_concurrent_streams m)
                       | None => ret tt
                       end
                   | _ => ret tt
                   end c = (c, Ok tt)).
  { destruct e; try done. by rewrite (Hset _ eq_refl). }
  rewrite Hfirst. unfold gets. rewrite Hch. cbn [ret]. by rewrite Hz.
Qed.

(** X4: a batch of stream events none of which has a record in the table
    (the callers timed out or were cancelled) is dropped whole: the
    connection is exactly as before and the reader goes on. *)
Theorem dispatch_all_unknown_streams evs : forall c,
  Forall (fun e => stream_event e = true /\ stream_id_of e <> 0
                   /\ channels c !! stream_id_of e = None) evs ->
  dispatch_all evs c = (c, Ok tt).
Proof.
  induction evs as [|e evs IH]; intros c Hall; [done|].
  apply Forall_cons in Hall as [(He & Hs & Hch) Hall].
  cbn [dispatch_all]. unfold bind. rewrite dispatch_absent; try done.
  - by apply IH.
  - intros cs ->. discriminate.
  - by left.
Qed.

(** X5: whatever the event, [dispatch] leaves [closed], the engine and the
    bytes written alone, adds no record to the table and removes none, and
    changes no record but the one of the event's stream. *)
Theorem dispatch_touches_one_record e c :
  let c' := fst (dispatch e c) in
  closed c' = closed c /\ conn c' = conn c /\ written c' = written c
  /\ dom (channels c') = dom (channels c)
  /\ forall sid, sid <> stream_id_of e ->
       channels c' !! sid = channels c !! sid.
Proof.
  cbn zeta.
  assert (Hd : forall (f : Channel.t -> Channel.t) i (m : gmap Z Channel.t),
             dom (alter f i m) = dom m) by (intros; apply dom_alter_L).
  assert (Hl : forall (f : Channel.t -> Channel.t) i j
                      (m : gmap Z Channel.t),
             j <> i -> alter f i m !! j = m !! j).
  { intros. apply lookup_alter_ne. congruence. }
  unfold dispatch, bind, gets, modify, ret, raise.
  destruct e as [cs| | | | | | |]; cbn [stream_id_of error_code_of fst snd];
    try destruct (cs !! MAX_CONCURRENT_STREAMS);
    cbn [channels set_max_concurrent_streams fst snd];
    match goal with |- context [channels c !! ?i] =>
      destruct (channels c !! i) as [[? [[]|] ? ? ?]|] eqn:? end;
    cbn [Channel.fut done fst snd];
    try match goal with |- context [if ?b then _ else _] => destruct b end;
    cbn; rewrite ?Hd; repeat split; intros; rewrite ?Hl by done; done.
Qed.

(** X6: a [RemoteSettingsChanged] that carries [MAX_CONCURRENT_STREAMS]
    replaces [max_concurrent_streams] by the new value and changes nothing
    else; one that does not carry it changes nothing. From then on
    [blocked] compares the open streams with the new value. *)
Theorem dispatch_settings cs c :
  channels c !! 0 = None ->
  dispatch (RemoteSettingsChanged cs) c
  = (match cs !! MAX_CONCURRENT_STREAMS with
     | Some m => set_max_concurrent_streams m c
     | None => c
     end, Ok tt)
  /\ (forall m, cs !! MAX_CONCURRENT_STREAMS = Some m ->
        (blocked (fst (dispatch (RemoteSettingsChanged cs) c)) = true <->
           closing c = true \/ closed c = true
           \/ outbound_flow_control_window (conn c) <= REQUIRED_FREE_SPACE
           \/ open_outbound_streams (conn c) >= m)).
Proof.
  intros H0.
  assert (Hd : dispatch (RemoteSettingsChanged cs) c
               = (match cs !! MAX_CONCURRENT_STREAMS with
                  | Some m => set_max_concurrent_streams m c
                  | None => c
                  end, Ok tt)).
  { unfold dispatch, bind, gets. cbn [stream_id_of error_code_of].
    destruct (cs !! MAX_CONCURRENT_STREAMS); cbn; by rewrite H0. }
  split; [exact Hd|]. intros m Hm. rewrite Hd, Hm. cbn [fst].
  unfold blocked. cbn.
  rewrite !orb_true_iff, Z.leb_le, Z.geb_le. intuition lia.
Qed.

(** X7: a [ConnectionTerminated] (GOAWAY) sets [closing] and nothing else:
    no waiter is completed, no record changes, [closed] stays as it was.
    Every [post] of a body within the size cap made afterwards within its
    deadline fails with [Blocked] and changes nothing. *)
Theorem dispatch_goaway code last c req now :
  channels c !! 0 = None ->
  Z.of_nat (length (Request.body req)) <= MAX_NOTIFICATION_PAYLOAD_SIZE ->
  past now (Request.deadline req) = false ->
  let c' := fst (dispatch (ConnectionTerminated code last) c) in
  c' = set_closing true c
  /\ post req now c' = (c', Raise Blocked).
Proof.
  intros H0 Hlen Hp c'.
  assert (Hc : c' = set_closing true c).
  { subst c'. unfold dispatch, bind, gets. cbn. by rewrite H0. }
  split; [done|]. rewrite Hc, post_unfold.
  apply Z.leb_le in Hlen. by rewrite Hlen, Hp.
Qed.

Lemma fold_delivered evs : forall ch,
  fold_left (fun ch e => delivered e ch) evs ch
  = Channel.mk (Channel.sid ch)
      (match evs, Channel.fut ch with
       | _ :: _, Some FPending => Some FResult
       | _, f => f
       end)
      (Channel.ev ch ++ evs) (Channel.header ch) (Channel.body ch).
Proof.
  induction evs as [|e evs IH]; intros ch.
  - cbn. rewrite app_nil_r. by destruct ch as [? [[]|] ? ? ?].
  - cbn [fold_left]. rewrite IH. unfold delivered.
    destruct ch as [s [[]|] evs0 h bd]; cbn; rewrite <- ?app_assoc;
      by destruct evs.
Qed.

(** X8: the events of one batch that belong to a stream with a record are
    appended to its buffer in the order the engine gave them, after what
    the buffer held; a pending waiter is completed, a waiter already done is
    left as it is; header and body of the record are not touched. *)
Theorem dispatch_all_keeps_order sid evs c ch :
  Forall (fun e => stream_event e = true /\ stream_id_of e = sid) evs ->
  sid <> 0 ->
  channels c !! sid = Some ch ->
  is_Some (Channel.fut ch) ->
  snd (dispatch_all evs c) = Ok tt
  /\ channels (fst (dispatch_all evs c)) !! sid
     = Some (Channel.mk (Channel.sid ch)
               (match evs, Channel.fut ch with
                | _ :: _, Some FPending => Some FResult
                | _, f => f
                end)
               (Channel.ev ch ++ evs) (Channel.header ch) (Channel.body ch)).
Proof.
  intros Hall Hsid Hch Hf.
  destruct (dispatch_all_stream_events sid evs c ch Hall Hsid Hch Hf)
    as (H1 & _ & H2).
  split; [done|]. by rewrite H2, fold_delivered.
Qed.

Lemma dispatch_dom e c :
  dom (channels (fst (dispatch e c))) = dom (channels c).
Proof.
  assert (Hd : forall (f : Channel.t -> Channel.t) i (m : gmap Z Channel.t),
             dom (alter f i m) = dom m) by (intros; apply dom_alter_L).
  unfold dispatch, bind, gets, modify, ret, raise.
  destruct e as [cs| | | | | | |]; cbn [stream_id_of error_code_of fst snd];
    try destruct (cs !! MAX_CONCURRENT_STREAMS);
    cbn [channels set_max_concurrent_streams fst snd];
    match goal with |- context [channels c !! ?i] =>
      destruct (channels c !! i) as [[? [[]|] ? ? ?]|] eqn:? end;
    cbn [Channel.fut done fst snd];
    try match goal with |- context [if ?b then _ else _] => destruct b end;
    cbn; rewrite ?Hd; done.
Qed.

Lemma dispatch_all_dom evs : forall c,
  dom (channels (fst (dispatch_all evs c))) = dom (channels c).
Proof.
  induction evs as [|e evs IH]; intros c; [done|].
  cbn [dispatch_all]. unfold bind.
  pose proof (dispatch_dom e c) as Hd.
  destruct (dispatch e c) as [c' [[]|err]]; cbn [fst] in *; [|done].
  by rewrite IH.
Qed.

(** X9: records enter and leave the stream table in [post] only: a turn of
    the reader (whatever was read), a turn of the writer and [__aexit__]
    keep the set of stream identifiers in the table; the writer does not
    touch the records at all. *)
Theorem table_changes_only_in_post r d c :
  dom (channels (background_read r c)) = dom (channels c)
  /\ dom (channels (background_read_start c)) = dom (channels c)
  /\ channels (background_write d c) = channels c
  /\ dom (channels (__aexit__ c)) = dom (channels c).
Proof.
  split; [|split; [|split]].
  - unfold background_read. destruct r as [[|x data]|e]; [| |done].
    + cbn. apply dom_fmap_L.
    + unfold codec.
      destruct (receive_data (conn c) (x :: data)) as [k [evs|e]]; [|done].
      pose proof (dispatch_all_dom evs (set_conn k c)) as Hd.
      destruct (dispatch_all evs (set_conn k c)) as [c' [[]|e]];
        cbn [fst] in Hd; [|done].
      by destruct (closed (set_please_write true c')).
  - unfold background_read_start. by destruct (closed c).
  - unfold background_write. destruct (closed c); [done|].
    destruct (data_to_send (conn c)) as [k [|x data]].
    + by destruct (please_write _).
    + by destruct d.
  - cbn. apply dom_fmap_L.
Qed.

(** X10: a record whose waiter was never armed (the record a failed send
    leaves behind) ends the reader: the first event for its stream is
    appended to the buffer, [ch.fut.done()] raises [AttributeError], the
    rest of the batch is not dispatched, the write signal is not set, and
    the task is over with the flags as they were. *)
Theorem background_read_unarmed_record data k e evs ch c :
  data <> [] ->
  receive_data (conn c) data = (k, Ok (e :: evs)) ->
  stream_event e = true ->
  channels c !! stream_id_of e = Some ch ->
  Channel.fut ch = None ->
  background_read (Ok data) c
  = set_bgr Finished
      (update_channel (stream_id_of e) (Channel.append e) (set_conn k c)).
Proof.
  intros Hne Hrcv He Hch Hf. unfold background_read, codec.
  destruct data as [|x data]; [done|]. rewrite Hrcv.
  cbn [dispatch_all]. unfold bind at 1.
  assert (dispatch e (set_conn k c)
          = (update_channel (stream_id_of e) (Channel.append e)
               (set_conn k c),
             Raise AttributeError)) as ->; [|done].
  unfold dispatch, bind, gets, modify, ret, raise.
  destruct e; try discriminate He;
    cbn [stream_id_of error_code_of fst snd] in *;
    cbn [channels set_conn]; by rewrite Hch, Hf.
Qed.

(** X11: the writer writes nothing once [closed] is set and ends; otherwise
    it appends to what was written the bytes the engine had pending, as one
    chunk and never an empty one; it changes neither the flags nor the
    stream table. *)
Theorem background_write_appends d c :
  let c' := background_write d c in
  (closed c = true -> c' = set_bgw Finished c)
  /\ (exists chunk, written c' = (written c ++ chunk)%list
                    /\ ([] ∉ chunk)
                    /\ (closed c = true -> chunk = [])
                    /\ (closed c = false ->
                          concat chunk = snd (data_to_send (conn c))
                          /\ conn c' = fst (data_to_send (conn c))))
  /\ closed c' = closed c /\ closing c' = closing c
  /\ channels c' = channels c.
Proof.
  cbn zeta. unfold background_write.
  destruct (closed c) eqn:Hc.
  - split; [done|]. split; [|done]. exists []. rewrite app_nil_r.
    repeat split; try done. apply not_elem_of_nil.
  - split; [done|].
    destruct (data_to_send (conn c)) as [k [|x data]] eqn:Hd; cbn [fst snd].
    + split; [|by destruct (please_write _)].
      exists []. rewrite app_nil_r.
      split; [by destruct (please_write _)|].
      split; [apply not_elem_of_nil|]. split; [done|]. intros _.
      split; [done|]. by destruct (please_write _).
    + split; [|by destruct d].
      exists [x :: data]. split; [by destruct d|].
      split; [|split; [done|]].
      * intros Hin. apply list_elem_of_singleton in Hin. discriminate.
      * intros _. cbn. rewrite app_nil_r. split; [done|]. by destruct d.
Qed.

End reader_more.

(** Events for streams 5 and 7, which nobody waits for. *)
Lemma dispatch_all_unknown_streams_witness :
  dispatch_all [ResponseReceived 5 [(":status", "200")]; StreamEnded 5;
                StreamReset 7 8] Sample.posted
  = (Sample.posted, Ok tt).
Proof.
  apply dispatch_all_unknown_streams.
  repeat constructor; by vm_compute.
Defined.

Lemma dispatch_touches_one_record_witness :
  channels (fst (dispatch (StreamReset 7 8) Sample.posted)) !! 1
  = channels Sample.posted !! 1.
Proof.
  apply (dispatch_touches_one_record (StreamReset 7 8) Sample.posted).
  by vm_compute.
Defined.

(** The peer lowers the cap to one stream while one is open. *)
Lemma dispatch_settings_witness :
  blocked Sample.posted = false
  /\ blocked (fst (dispatch (RemoteSettingsChanged {[3 := 1]})
                     Sample.posted)) = true.
Proof.
  split; [reflexivity|].
  apply (proj2 (dispatch_settings {[3 := 1]} Sample.posted eq_refl) 1).
  - reflexivity.
  - right. right. right. by vm_compute.
Defined.

Lemma dispatch_goaway_witness :
  post (Sample.request Inf) 2
    (fst (dispatch (ConnectionTerminated 0 1) Sample.posted))
  = (fst (dispatch (ConnectionTerminated 0 1) Sample.posted), Raise Blocked).
Proof.
  apply (dispatch_goaway 0 1 Sample.posted (Sample.request Inf) 2).
  - reflexivity.
  - by vm_compute.
  - reflexivity.
Defined.

Lemma dispatch_all_keeps_order_witness :
  channels (fst (dispatch_all [DataReceived 1 (b "1"); DataReceived 1 (b "2")]
                   Sample.posted)) !! 1
  = Some (Channel.mk 1 (Some FResult)
            [DataReceived 1 (b "1"); DataReceived 1 (b "2")] None []).
Proof.
  apply (dispatch_all_keeps_order 1
           [DataReceived 1 (b "1"); DataReceived 1 (b "2")] Sample.posted
           (Channel.mk 1 (Some FPending) [] None [])).
  - repeat constructor.
  - done.
  - reflexivity.
  - by eexists.
Defined.

(** The send of stream 1 fails, its record stays without a waiter; the
    peer's [WINDOW_UPDATE] for stream 1 then ends the reader. *)
Lemma background_read_unarmed_record_witness :
  let c := fst (post (Sample.request Inf) 0
                  (Sample.with_engine Sample.engine_small_then_update)) in
  channels c !! 1 = Some (Channel.mk 1 None [] None [])
  /\ bgr (background_read (Ok (b "frame")) c) = Finished
  /\ closed (background_read (Ok (b "frame")) c) = false.
Proof.
  intros c. split; [reflexivity|].
  rewrite (background_read_unarmed_record (b "frame")
             (fst (FakeH2.receive (conn c) (b "frame")))
             (WindowUpdated 1 10) [] (Channel.mk 1 None [] None []) c);
    try reflexivity.
  - split; reflexivity.
  - discriminate.
Defined.

Lemma background_write_appends_witness :
  written (background_write (Ok tt) Sample.posted)
  = [concat [b "PRI * HTTP/2.0"; b "WINDOW_UPDATE";
             b "HEADERS"; b "WINDOW_UPDATE"; b "{}"]]
  /\ written (background_write (Ok tt) (set_closed true Sample.posted)) = [].
Proof.
  destruct (background_write_appends (Ok tt) Sample.posted)
    as (_ & (chunk & Hw & _ & _ & Hc) & _).
  destruct (background_write_appends (Ok tt) (set_closed true Sample.posted))
    as (Hcl & _).
  split.
  - reflexivity.
  - by rewrite (Hcl eq_refl).
Defined.

(** ** The wait loop: scanning, ending, expiring *)

(** The scan as a function of the buffer. *)
Lemma scan_buffer evs ch :
  Channel.scan evs ch
  = (Channel.mk (Channel.sid ch) (Channel.fut ch) (Channel.ev ch)
       (headers_seen evs (Channel.header ch))
       (Channel.body ch ++ payload evs)%list,
     has_end evs).
Proof.
  revert ch. induction evs as [|e evs IH]; intros ch.
  - cbn. rewrite app_nil_r. by destruct ch.
  - destruct e; cbn [Channel.scan]; try (rewrite IH; clear IH);
      unfold headers_seen, payload, has_end; cbn;
      rewrite ?app_nil_r, <- ?app_assoc; try done.
    by destruct ch.
Qed.

(** X12: one scan of the event buffer leaves in the record, after the body
    it had, the data of the [DataReceived] events ahead of the first
    [StreamEnded], in order, and as header the dict of the last
    [ResponseReceived] ahead of it (the old header if there is none); it
    returns exactly when a [StreamEnded] is in the buffer; events behind the
    first [StreamEnded] and events of other kinds have no effect. *)
Theorem scan_spec evs ch :
  Channel.scan evs ch
  = (Channel.mk (Channel.sid ch) (Channel.fut ch) (Channel.ev ch)
       (headers_seen evs (Channel.header ch))
       (Channel.body ch ++ payload evs)%list,
     has_end evs).
Proof.
  revert ch. induction evs as [|e evs IH]; intros ch.
  - cbn. rewrite app_nil_r. by destruct ch.
  - destruct e; cbn [Channel.scan]; try (rewrite IH; clear IH);
      unfold headers_seen, payload, has_end; cbn;
      rewrite ?app_nil_r, <- ?app_assoc; try done.
    by destruct ch.
Qed.

Section wait_loop.
Context {K : Type} `{!H2Connection K}.
Implicit Type c : Connection.t K.
Variable int : string -> res Z.
Variable loads : bytes -> decoded.

(** X13: when the whole answer of the peer, up to [StreamEnded], reaches a
    freshly posted stream before its first wake-up, [post] returns
    [Response.new] of the last response headers and of the data in the
    order sent, each once, and the record is removed; this holds whether or
    not [closing] was set meanwhile. *)
Theorem post_single_wake_response c sid req evs now :
  sid <> 0 ->
  channels c !! sid = Some (Channel.mk sid (Some FPending) [] None []) ->
  Forall (fun e => stream_event e = true /\ stream_id_of e = sid) evs ->
  has_end evs = true ->
  past now (Request.deadline req) = false ->
  let out := post_resume int loads req sid now (fst (dispatch_all evs c)) in
  snd out
  = res_map Return (Response.new int loads (headers_seen evs None) (payload evs))
  /\ channels (fst out) !! sid = None.
Proof.
  intros Hsid Hch Hall Hend Hp out.
  destruct (dispatch_all_stream_events sid evs c _ Hall Hsid Hch
              ltac:(by eexists)) as (_ & _ & Hl).
  rewrite fold_delivered in Hl. cbn in Hl.
  assert (Hne : evs <> []) by (intros ->; discriminate).
  destruct evs as [|e evs']; [done|].
  pose proof (post_resume_woken int loads req sid now _ _ Hl
                (or_introl eq_refl) Hp) as H1.
  cbn zeta in H1. rewrite scan_buffer in H1. cbn [fst snd] in H1.
  cbn [Channel.ev Channel.header Channel.body] in H1.
  rewrite Hend in H1. exact H1.
Qed.

Lemma never_waits_bind {A} (m : M K A) (f : A -> M K progress) :
  quiet m -> (forall a, never_waits (f a)) -> never_waits (bind m f).
Proof.
  intros Hm Hf c Hcl s tmo. unfold bind.
  destruct (Hm c) as [_ Hc]. specialize (Hc Hcl).
  destruct (m c) as [c' [a|e]]; [|done]. by apply Hf.
Qed.

Lemma never_waits_wait req sid now : never_waits (wait (K:=K) req sid now).
Proof. intros c Hcl s tmo. unfold wait, bind, gets. by rewrite Hcl. Qed.

Lemma never_waits_try_finally_del sid (m : M K progress) :
  never_waits m -> never_waits (try_finally_del sid m).
Proof.
  intros Hm c Hcl s tmo. unfold try_finally_del. specialize (Hm c Hcl).
  destruct (m c) as [c' [[s' tmo'|r]|e]]; cbn [snd] in Hm.
  - by destruct (Hm s' tmo').
  - by destruct (del_channel sid c') as [c'' []].
  - by destruct (del_channel sid c') as [c'' []].
Qed.

Lemma post_resume_closing req sid now :
  never_waits (post_resume (K:=K) int loads req sid now).
Proof.
  unfold post_resume. apply never_waits_try_finally_del.
  apply never_waits_bind; [apply quiet_the_channel|intros ch].
  apply never_waits_bind.
  { destruct (Channel.fut ch) as [[| |e|]|];
      first [apply quiet_ret | apply quiet_raise
            | apply quiet_modify; intros ?; by split]. }
  intros _. apply never_waits_bind; [apply quiet_raise_if|intros _].
  apply never_waits_bind; [apply quiet_the_channel|intros ch'].
  destruct (Channel.scan (Channel.ev ch') ch') as [ch'' ended].
  apply never_waits_bind; [apply quiet_modify; intros ?; by split|intros _].
  destruct ended; [|apply never_waits_wait].
  apply never_waits_bind; [apply quiet_lift|intros r].
  by intros c _ s tmo.
Qed.

(** X14: once [closing] is set, a [post] that wakes up, for whatever
    reason and in whatever state its waiter is, does not suspend again: it
    returns or raises, and its record is gone from the table. *)
Theorem post_resume_closing_ends req sid now c :
  closing c = true ->
  (forall s tmo, snd (post_resume int loads req sid now c) <> Ok (Await s tmo))
  /\ channels (fst (post_resume int loads req sid now c)) !! sid = None.
Proof.
  intros Hcl. split.
  - by apply post_resume_closing.
  - apply post_resume_cleanup. by apply post_resume_closing.
Qed.

(** X15: after the reader met the end of the transport stream, every
    [post] with an armed waiter can be woken at once, whatever its deadline;
    on waking it returns or raises without suspending again and its record
    is removed; one whose waiter was pending raises [Closed]. *)
Theorem eof_releases_every_post c sid ch req now :
  channels c !! sid = Some ch ->
  is_Some (Channel.fut ch) ->
  let c' := background_read (Ok []) c in
  let out := post_resume int loads req sid now c' in
  wakeable req sid now c' = true
  /\ (forall s tmo, snd out <> Ok (Await s tmo))
  /\ channels (fst out) !! sid = None
  /\ (Channel.fut ch = Some FPending -> snd out = Raise Closed).
Proof.
  intros Hch Hf c' out.
  assert (Hcl : closing c' = true) by done.
  split; [|split; [|split]].
  - unfold wakeable. subst c'. cbn [background_read reader_exit channels
      set_bgr set_channels set_closed set_closing].
    rewrite lookup_fmap, Hch. cbn. unfold Channel.release.
    destruct Hf as [f Hf]. rewrite Hf. by destruct f; cbn; rewrite ?Hf.
  - by apply post_resume_closing.
  - apply post_resume_cleanup. by apply post_resume_closing.
  - intros Hp.
    apply (post_resume_released int loads req sid now c' (Channel.release ch)).
    + subst c'. cbn. by rewrite lookup_fmap, Hch.
    + unfold Channel.release. by rewrite Hp.
Qed.

(** X16: [__aexit__], run through, leaves both flags set, both background
    tasks over and the transport closed; the engine and the bytes written
    are as before; every pending waiter is failed with [Closed] while the
    records stay in the table for their owners to remove. A [post] made
    afterwards with a body within the size cap and within its deadline
    fails with [Blocked]; a [post] that was waiting with a pending waiter
    can be woken, raises [Closed] and removes its record. *)
Theorem aexit_closes_and_releases c :
  let c' := __aexit__ c in
  closed c' = true /\ closing c' = true
  /\ bgr c' = Finished /\ bgw c' = Finished /\ w_closed c' = true
  /\ conn c' = conn c /\ written c' = written c
  /\ (forall sid, channels c' !! sid = Channel.release <$> channels c !! sid)
  /\ (forall req now,
        Z.of_nat (length (Request.body req))
        <= MAX_NOTIFICATION_PAYLOAD_SIZE ->
        past now (Request.deadline req) = false ->
        post req now c' = (c', Raise Blocked))
  /\ (forall sid ch req now,
        channels c !! sid = Some ch -> Channel.fut ch = Some FPending ->
        wakeable req sid now c' = true
        /\ snd (post_resume int loads req sid now c') = Raise Closed
        /\ channels (fst (post_resume int loads req sid now c')) !! sid = None).
Proof.
  cbn zeta. do 7 (split; [reflexivity|]). split; [|split].
  - intros sid. cbn. apply lookup_fmap.
  - intros req now Hlen Hp. rewrite post_unfold.
    apply Z.leb_le in Hlen. by rewrite Hlen, Hp.
  - intros sid ch req now Hch Hf.
    assert (Hl : channels (__aexit__ c) !! sid = Some (Channel.release ch)).
    { cbn. by rewrite lookup_fmap, Hch. }
    assert (Hr : Channel.fut (Channel.release ch)
                 = Some (FException Closed)).
    { unfold Channel.release. by rewrite Hf. }
    split.
    + unfold wakeable. by rewrite Hl, Hr.
    + by apply (post_resume_released int loads req sid now _
                  (Channel.release ch)).
Qed.

(** X17: a [post] that wakes up after its deadline with a waiter that
    holds a result (the reader delivered an event), is still pending (the
    timer ran out) or was cancelled by [wait_for] fails with [Timeout]
    whatever its buffer holds, a complete response included; the only
    change to the connection is that its record is removed. *)
Theorem post_resume_after_deadline c sid ch req now :
  channels c !! sid = Some ch ->
  Channel.fut ch = Some FResult \/ Channel.fut ch = Some FPending
  \/ Channel.fut ch = Some FCancelled ->
  past now (Request.deadline req) = true ->
  post_resume int loads req sid now c
  = (set_channels (delete sid (channels c)) c, Raise Timeout).
Proof.
  intros Hch Hf Hp.
  unfold post_resume, try_finally_del, bind, the_channel.
  rewrite Hch.
  assert (Hdel : forall f : Channel.t -> Channel.t,
            delete sid (alter f sid (channels c)) = delete sid (channels c)).
  { intros f. apply map_eq. intros j.
    destruct (decide (sid = j)) as [->|Hne].
    - by rewrite !lookup_delete_eq.
    - by rewrite !lookup_delete_ne, lookup_alter_ne. }
  destruct Hf as [-> | [-> | ->]]; cbn [ret modify];
    unfold raise_if; rewrite Hp; cbn [raise del_channel];
    unfold del_channel; rewrite ?lookup_update_channel, Hch;
    cbn [fmap option_fmap option_map fst snd]; [done| |done].
  unfold update_channel, set_channels. cbn. by rewrite Hdel.
Qed.

(** X18: once a [post] is over, after a cancellation or a wake-up that
    did not leave it suspended, an event that arrives for its stream
    changes nothing: the reader finds no record and goes on. A cancellation
    that finds the waiter pending always ends the call, with
    [CancelledError]. *)
Theorem late_events_are_dropped c sid req now e :
  stream_event e = true -> stream_id_of e = sid -> sid <> 0 ->
  ((forall s tmo,
      snd (post_cancel int loads req sid now c) <> Ok (Await s tmo)) ->
   dispatch e (fst (post_cancel int loads req sid now c))
   = (fst (post_cancel int loads req sid now c), Ok tt))
  /\ ((forall s tmo,
         snd (post_resume int loads req sid now c) <> Ok (Await s tmo)) ->
      dispatch e (fst (post_resume int loads req sid now c))
      = (fst (post_resume int loads req sid now c), Ok tt))
  /\ (forall ch,
        channels c !! sid = Some ch -> Channel.fut ch = Some FPending ->
        snd (post_cancel int loads req sid now c) = Raise CancelledError
        /\ dispatch e (fst (post_cancel int loads req sid now c))
           = (fst (post_cancel int loads req sid now c), Ok tt)).
Proof.
  intros He Hs Hsid.
  assert (Hset : forall cs, e = RemoteSettingsChanged cs ->
                            cs !! MAX_CONCURRENT_STREAMS = None).
  { intros cs ->. discriminate. }
  assert (Hid : stream_id_of e <> 0 \/ error_code_of e = None)
    by (left; congruence).
  assert (Hc : (forall s tmo,
                  snd (post_cancel int loads req sid now c)
                  <> Ok (Await s tmo)) ->
               dispatch e (fst (post_cancel int loads req sid now c))
               = (fst (post_cancel int loads req sid now c), Ok tt)).
  { intros Hne. apply dispatch_absent; try done.
    rewrite Hs. by apply post_cancel_cleanup. }
  split; [exact Hc|]. split.
  - intros Hne. apply dispatch_absent; try done.
    rewrite Hs. by apply post_resume_cleanup.
  - intros ch Hch Hf.
    pose proof (post_cancel_pending int loads req sid now c ch Hch Hf) as Hr.
    split; [exact Hr|]. apply Hc. intros s tmo. by rewrite Hr.
Qed.

(** X19: [closing] is final for new work: from a state with [closing] set,
    whatever the tasks do next, [closing] stays set and every [post] of a
    body within the size cap, within its deadline, fails with [Blocked]
    without changing the connection. *)
Theorem closing_is_final s s' req now :
  rtc (Sched.step int loads) s s' ->
  closing (fst s) = true ->
  Z.of_nat (length (Request.body req)) <= MAX_NOTIFICATION_PAYLOAD_SIZE ->
  past now (Request.deadline req) = false ->
  closing (fst s') = true
  /\ post req now (fst s') = (fst s', Raise Blocked).
Proof.
  intros Hrtc Hcl Hlen Hp.
  assert (Hcl' : closing (fst s') = true).
  { revert Hcl. induction Hrtc as [|s1 s2 s3 Hstep _ IH]; [done|].
    intros Hcl. apply IH.
    destruct (step_flags int loads s1 s2 Hstep) as [[Hc _] _]. by apply Hc. }
  split; [done|]. rewrite post_unfold.
  apply Z.leb_le in Hlen. rewrite Hlen, Hp.
  unfold blocked. by rewrite Hcl'.
Qed.

End wait_loop.

(** The buffer of the second wake-up of [two_reads_double_the_body], scanned
    from an empty record. *)
Example scan_spec_example :
  Channel.scan
    [ResponseReceived 1 [(":status", "400")]; DataReceived 1 (b "1");
     DataReceived 1 (b "2"); StreamEnded 1; DataReceived 1 (b "3")]
    (Channel.mk 1 (Some FResult) [] None [])
  = (Channel.mk 1 (Some FResult) [] (Some [(":status", "400")]) (b "12"),
     true).
Proof. reflexivity. Qed.

Lemma post_single_wake_response_witness :
  snd (post_resume PyInt.int FakeJSON.loads (Sample.request (At 10)) 1 1
         (fst (dispatch_all
                 [ResponseReceived 1 [(":status", "400")];
                  DataReceived 1 (b "1"); DataReceived 1 (b "2");
                  StreamEnded 1] Sample.posted)))
  = Ok (Return (Response.mk 400 [] (PyInt 12))).
Proof.
  apply (post_single_wake_response PyInt.int FakeJSON.loads Sample.posted 1
           (Sample.request (At 10))
           [ResponseReceived 1 [(":status", "400")];
            DataReceived 1 (b "1"); DataReceived 1 (b "2");
            StreamEnded 1] 1).
  - done.
  - reflexivity.
  - repeat constructor.
  - reflexivity.
  - reflexivity.
Defined.

(** GOAWAY while stream 1 waits; its timer fires at the deadline. *)
Lemma post_resume_closing_ends_witness :
  let c := fst (dispatch (ConnectionTerminated 0 1) Sample.posted) in
  snd (post_resume PyInt.int FakeJSON.loads (Sample.request (At 10)) 1 10 c)
  = Raise Closed
  /\ channels (fst (post_resume PyInt.int FakeJSON.loads
                      (Sample.request (At 10)) 1 10 c))
     !! 1 = None.
Proof.
  intros c. split; [reflexivity|].
  apply (post_resume_closing_ends PyInt.int FakeJSON.loads
           (Sample.request (At 10)) 1 10 c).
  reflexivity.
Defined.

Lemma eof_releases_every_post_witness :
  let c' := background_read (Ok []) Sample.posted in
  wakeable (Sample.request Inf) 1 0 c' = true
  /\ snd (post_resume PyInt.int FakeJSON.loads (Sample.request Inf) 1 0 c')
     = Raise Closed.
Proof.
  intros c'.
  destruct (eof_releases_every_post PyInt.int FakeJSON.loads Sample.posted 1
              (Channel.mk 1 (Some FPending) [] None [])
              (Sample.request Inf) 0 eq_refl ltac:(by eexists))
    as (Hw & _ & _ & Hc).
  split; [exact Hw|]. by apply Hc.
Defined.

Lemma aexit_closes_and_releases_witness :
  closed (__aexit__ Sample.posted) = true
  /\ snd (post_resume PyInt.int FakeJSON.loads (Sample.request Inf) 1 0
            (__aexit__ Sample.posted)) = Raise Closed
  /\ post (Sample.request Inf) 0 (__aexit__ Sample.posted)
     = (__aexit__ Sample.posted, Raise Blocked).
Proof.
  destruct (aexit_closes_and_releases PyInt.int FakeJSON.loads Sample.posted)
    as (Hc & _ & _ & _ & _ & _ & _ & _ & Hp & Hr).
  split; [exact Hc|]. split.
  - apply (Hr 1 (Channel.mk 1 (Some FPending) [] None [])
              (Sample.request Inf) 0%Q); reflexivity.
  - apply Hp; [by vm_compute|reflexivity].
Defined.

(** The complete answer is in the buffer, but the post is resumed at 11,
    after its deadline 10. *)
Lemma post_resume_after_deadline_witness :
  let c := fst (dispatch_all
                  [ResponseReceived 1 [(":status", "200")]; StreamEnded 1]
                  Sample.posted) in
  snd (post_resume PyInt.int FakeJSON.loads (Sample.request (At 10)) 1 11 c)
  = Raise Timeout.
Proof.
  intros c.
  rewrite (post_resume_after_deadline PyInt.int FakeJSON.loads c 1
             (Channel.mk 1 (Some FResult)
                [ResponseReceived 1 [(":status", "200")]; StreamEnded 1]
                None [])
             (Sample.request (At 10)) 11); try reflexivity.
  by left.
Defined.

(** The caller cancels the post on stream 1 at time 1, while its waiter is
    pending; the end of the stream arrives afterwards. *)
Lemma late_events_are_dropped_witness :
  let out :=
    post_cancel PyInt.int FakeJSON.loads (Sample.request (At 10)) 1 1
      Sample.posted in
  snd out = Raise CancelledError
  /\ dispatch (StreamEnded 1) (fst out) = (fst out, Ok tt).
Proof.
  intros out.
  destruct (late_events_are_dropped PyInt.int FakeJSON.loads Sample.posted 1
              (Sample.request (At 10)) 1 (StreamEnded 1))
    as (_ & _ & H); [done|done|done|].
  apply (H (Channel.mk 1 (Some FPending) [] None [])); reflexivity.
Defined.

(** The owner enters [__aexit__]; the reader then meets the end of the
    stream. *)
Lemma closing_is_final_witness :
  post (Sample.request Inf) 0
    (background_read (Ok []) (aexit_enter Sample.posted))
  = (background_read (Ok []) (aexit_enter Sample.posted), Raise Blocked).
Proof.
  apply (closing_is_final PyInt.int FakeJSON.loads
           (aexit_enter Sample.posted, Sched.Exiting)
           (background_read (Ok []) (aexit_enter Sample.posted),
            Sched.Exiting)
           (Sample.request Inf) 0).
  - apply rtc_once.
    apply (Sched.step_read PyInt.int FakeJSON.loads (Ok []) (aexit_enter Sample.posted)).
    reflexivity.
  - reflexivity.
  - by vm_compute.
  - reflexivity.
Defined.

(** ** Requests and responses *)

Lemma get_set {V} k k' (v : V) d :
  Dict.get k (Dict.set k' v d)
  = if String.eqb k k' then Some v else Dict.get k d.
Proof.
  induction d as [|[k1 v1] d IH]; cbn [Dict.set Dict.get].
  - done.
  - destruct (String.eqb_spec k' k1) as [->|N1]; cbn [Dict.get].
    + by destruct (String.eqb k k1).
    + destruct (String.eqb_spec k k1) as [->|N2]; [|done].
      destruct (String.eqb_spec k1 k'); [congruence|done].
Qed.

Lemma get_app {V} k (d1 d2 : Dict.t V) :
  Dict.get k (d1 ++ d2)%list
  = match Dict.get k d1 with Some v => Some v | None => Dict.get k d2 end.
Proof.
  induction d1 as [|[k1 v1] d1 IH]; cbn [app Dict.get]; [done|].
  by destruct (String.eqb k k1).
Qed.

Lemma get_fold_set {V} k (items : list (string * V)) : forall d0,
  Dict.get k (fold_left (fun d kv => Dict.set (fst kv) (snd kv) d) items d0)
  = match Dict.get k (rev items) with
    | Some v => Some v
    | None => Dict.get k d0
    end.
Proof.
  induction items as [|[k1 v1] items IH]; intros d0; [done|].
  cbn [fold_left rev]. rewrite IH, get_app, get_set. cbn [fst snd Dict.get].
  destruct (Dict.get k (rev items)); [done|]. by destruct (String.eqb k k1).
Qed.

(** [dict(items)[k]] is the value of the last item with key [k]. *)
Lemma get_of_items {V} k (items : list (string * V)) :
  Dict.get k (Dict.of_items items) = Dict.get k (rev items).
Proof.
  unfold Dict.of_items. rewrite get_fold_set.
  by destruct (Dict.get k (rev items)).
Qed.

Lemma get_None_keys {V} k (d : Dict.t V) :
  Dict.get k d = None <-> k ∉ keys d.
Proof.
  induction d as [|[k1 v1] d IH]; cbn [Dict.get keys map fst].
  - split; [|done]. intros _ Hin. inversion Hin.
  - destruct (String.eqb_spec k k1) as [->|N].
    + split; [done|]. intros Hn. destruct Hn. by left.
    + rewrite IH. unfold keys. rewrite not_elem_of_cons. tauto.
Qed.

Lemma keys_set {V} k (v : V) d :
  keys (Dict.set k v d) = keys d
  \/ ((k ∉ keys d) /\ keys (Dict.set k v d) = (keys d ++ [k])%list).
Proof.
  induction d as [|[k1 v1] d IH]; cbn [Dict.set].
  - right. split; [|done]. intros Hin. inversion Hin.
  - destruct (String.eqb_spec k k1) as [->|N].
    + by left.
    + destruct IH as [IH|[Hn IH]].
      * left. unfold keys in *. cbn. by rewrite IH.
      * right. split.
        -- unfold keys in *. cbn. rewrite not_elem_of_cons. done.
        -- unfold keys in *. cbn. by rewrite IH.
Qed.

(** A dict has one entry per key. *)
Lemma NoDup_set {V} k (v : V) d :
  NoDup (keys d) -> NoDup (keys (Dict.set k v d)).
Proof.
  intros Hd. destruct (keys_set k v d) as [->|[Hn ->]]; [done|].
  apply NoDup_app. split; [done|]. split.
  - intros x Hx Hin. apply list_elem_of_singleton in Hin. by subst.
  - apply NoDup_singleton.
Qed.

Lemma NoDup_of_items {V} (items : list (string * V)) :
  NoDup (keys (Dict.of_items items)).
Proof.
  unfold Dict.of_items.
  assert (forall d0 : Dict.t V, NoDup (keys d0) ->
    NoDup (keys (fold_left (fun d kv => Dict.set (fst kv) (snd kv) d)
                   items d0))) as H.
  { induction items as [|kv items IH]; intros d0 Hd; [done|].
    cbn [fold_left]. apply IH. by apply NoDup_set. }
  apply H. constructor.
Qed.

Lemma get_remove_ne {V} k k' (d : Dict.t V) :
  k <> k' -> Dict.get k (Dict.remove k' d) = Dict.get k d.
Proof.
  intros Hne.
  induction d as [|[k1 v1] d IH]; cbn [Dict.remove Dict.get]; [done|].
  destruct (String.eqb_spec k' k1) as [->|N1].
  - by destruct (String.eqb_spec k k1).
  - cbn [Dict.get]. by rewrite IH.
Qed.

Lemma get_remove_eq {V} k (d : Dict.t V) :
  NoDup (keys d) -> Dict.get k (Dict.remove k d) = None.
Proof.
  induction d as [|[k1 v1] d IH];
    cbn [Dict.remove Dict.get keys map fst]; [done|].
  intros Hd. apply NoDup_cons in Hd as [Hn Hd].
  destruct (String.eqb k k1) eqn:E1.
  - apply String.eqb_eq in E1 as ->. by apply get_None_keys.
  - cbn [Dict.get]. rewrite E1. by apply IH.
Qed.

Lemma NoDup_remove {V} k (d : Dict.t V) :
  NoDup (keys d) -> NoDup (keys (Dict.remove k d)).
Proof.
  induction d as [|[k1 v1] d IH]; cbn [Dict.remove keys map fst]; [done|].
  intros Hd. apply NoDup_cons in Hd as [Hn Hd].
  destruct (String.eqb_spec k k1) as [->|N]; [done|].
  cbn [map fst]. apply NoDup_cons. split; [|by apply IH].
  intros Hin. apply get_None_keys in Hn.
  apply get_None_keys in Hin; [done|].
  rewrite get_remove_ne; [done|congruence].
Qed.

Section response_more.
Variable int : string -> res Z.
Variable loads : bytes -> decoded.

(** X20: for the response of a [post], whose header snapshot is
    [dict(event.headers)]: when the peer repeats a header name the last
    value counts, for [:status] as for the others; the status code is what
    [int] gives for the last [:status] (for the text [0] without one); the
    header map of the response has no [:status] entry and one entry per
    name. This holds for every [int] and [json.loads]. *)
Theorem Response_new_of_peer_headers hs body r :
  Response.new int loads (Some (Dict.of_items hs)) body = Ok r ->
  int (default "0" (Dict.get ":status" (rev hs))) = Ok (Response.code r)
  /\ Dict.get ":status" (Response.header r) = None
  /\ (forall k, k <> ":status" ->
        Dict.get k (Response.header r) = Dict.get k (rev hs))
  /\ NoDup (keys (Response.header r)).
Proof.
  rewrite new_unfold. cbn [default from_option id].
  rewrite get_of_items.
  destruct (int _) as [code|e]; [|done].
  destruct (Response.decode loads body) as [d|e]; [|done].
  intros [= <-]. cbn [Response.code Response.header].
  split; [done|]. split; [|split].
  - apply get_remove_eq, NoDup_of_items.
  - intros k Hk. by rewrite get_remove_ne, get_of_items.
  - apply NoDup_remove, NoDup_of_items.
Qed.

End response_more.

Lemma Response_new_of_peer_headers_witness :
  Response.new PyInt.int FakeJSON.loads
    (Some (Dict.of_items [(":status", "200"); ("apns-id", "A1");
                          (":status", "410"); ("apns-id", "B2")])) []
  = Ok (Response.mk 410 [("apns-id", "B2")] PyNone)
  /\ Dict.get "apns-id" [("apns-id", "B2")]
     = Dict.get "apns-id" (rev [(":status", "200"); ("apns-id", "A1");
                                (":status", "410"); ("apns-id", "B2")]).
Proof.
  split; [reflexivity|].
  apply (Response_new_of_peer_headers PyInt.int FakeJSON.loads
           [(":status", "200"); ("apns-id", "A1");
            (":status", "410"); ("apns-id", "B2")] []
           (Response.mk 410 [("apns-id", "B2")] PyNone)).
  - reflexivity.
  - discriminate.
Defined.

Lemma append_self s t : s +:+ t = s -> t = "".
Proof.
  induction s as [|a s IH]; cbn; [done|]. intros [= H]. by apply IH.
Qed.

(** X21: [authority] is the bare host exactly when the URL has no port, or
    port 80 under [http], or port 443 under [https]; in every other case it
    is the host, a colon and the port in decimal. *)
Theorem authority_bare_host u :
  (authority u = host u <->
     port u = None
     \/ (scheme u = "http" /\ port u = Some 80)
     \/ (scheme u = "https" /\ port u = Some 443))
  /\ (forall p, port u = Some p -> authority u <> host u ->
        authority u = host u +:+ ":" +:+ pretty p).
Proof.
  unfold authority. destruct (port u) as [p|]; [|split; [tauto|done]].
  assert (Hb : (String.eqb (scheme u) "http" && (p =? 80))
               || (String.eqb (scheme u) "https" && (p =? 443)) = true
               <-> (scheme u = "http" /\ p = 80)
                   \/ (scheme u = "https" /\ p = 443)).
  { by rewrite orb_true_iff, !andb_true_iff, !String.eqb_eq, !Z.eqb_eq. }
  destruct (_ || _).
  - split; [split; [|done]|].
    + intros _. right. destruct (proj1 Hb eq_refl) as [[? ->]|[? ->]]; auto.
    + by intros p' _ Hne.
  - split; [split|].
    + intros H. apply append_self in H. discriminate.
    + intros [?|[[? [= ->]]|[? [= ->]]]]; [done|..];
        (assert (false = true) by (apply Hb; auto)); done.
    + by intros p' [= <-] _.
Qed.

Lemma authority_bare_host_witness :
  authority (mk_url "https" "api.push.apple.com" (Some 443) "/3/device/a")
  = "api.push.apple.com"
  /\ authority (mk_url "https" "localhost" (Some 2197) "/3/device/a")
     = "localhost:2197"
  /\ authority (mk_url "https" "localhost" (Some 80) "/") = "localhost:80".
Proof.
  split; [|split].
  - apply (proj2 (proj1 (authority_bare_host
             (mk_url "https" "api.push.apple.com" (Some 443)
                "/3/device/a")))).
    right. right. by split.
  - apply (proj2 (authority_bare_host
             (mk_url "https" "localhost" (Some 2197) "/3/device/a")) 2197);
      [reflexivity|discriminate].
  - apply (proj2 (authority_bare_host
             (mk_url "https" "localhost" (Some 80) "/")) 80);
      [reflexivity|discriminate].
Defined.
